(** * Kairo leveling bot: a shallow embedding of [Bot.py]

    The bot keeps one SQLite table [xp_data] keyed by [(user_id, guild_id)],
    one table [reward_roles] keyed by [guild_id], two process-local
    dictionaries ([cooldowns] and [last_top_user]) and talks to Discord
    for role changes.  Integers are Python integers, hence [Z]; the two
    dictionaries and the tables (which have a primary key) are finite maps.

    The event-loop clock [asyncio.get_event_loop().time()] is a float
    counting seconds; all the instants used below are whole seconds, on
    which float subtraction and comparison are exact, so instants are [Z]. *)

From Stdlib Require Import ZArith Lia.
From stdpp Require Import base gmap list strings pretty sorting.
From Equations Require Import Equations.

Local Open Scope Z_scope.

(** ** CONFIG *)

Definition ADMINS : list Z := [1237644967422459996].
Definition XP_PER_MESSAGE : Z * Z := (5, 15).
Definition XP_PER_REACTION : Z * Z := (5, 15).
Definition LEVEL_MULTIPLIER : Z := 100.
Definition XP_COOLDOWN : Z := 60.
Definition REACTION_COOLDOWN : Z := 90.

(** ** The database *)

(** The dictionary [{"xp": .., "level": ..}] that [get_user_data] returns and
    the helpers mutate locally; also the value columns of a row of [xp_data]. *)
Record progress : Type := Progress { p_xp : Z; p_level : Z }.

(** [xp_data] has PRIMARY KEY (user_id, guild_id); [reward_roles] has
    PRIMARY KEY guild_id. *)
Record database : Type := Database {
  xp_data : gmap (Z * Z) progress;
  reward_roles : gmap Z Z
}.

Definition set_xp_data (t : gmap (Z * Z) progress) (db : database) : database :=
  {| xp_data := t; reward_roles := reward_roles db |}.

Definition empty_db : database := {| xp_data := ∅; reward_roles := ∅ |}.

(** ** XP helpers *)

Definition xp_for_next_level (level : Z) : Z := level * LEVEL_MULTIPLIER.

(** SELECT xp, level ... ; when there is no row, INSERT OR REPLACE the
    default row and return the default dictionary. *)
Definition get_user_data (user_id guild_id : Z) (db : database)
  : progress * database :=
  match xp_data db !! (user_id, guild_id) with
  | Some row => (row, db)
  | None =>
      (Progress 0 1,
       set_xp_data (<[(user_id, guild_id) := Progress 0 1]> (xp_data db)) db)
  end.

(** UPDATE xp_data SET xp = ?, level = ? WHERE user_id = ? AND guild_id = ?:
    a row that is not there is not created.  This is the statement once its
    parameters are bound; [update_user_data_sqlite] further down has the
    binding, which refuses integers outside 64 bits. *)
Definition update_user_data (user_id guild_id xp level : Z) (db : database)
  : database :=
  set_xp_data (alter (λ _, Progress xp level) (user_id, guild_id) (xp_data db)) db.

(** The body of [add_xp] between the read and the write: one comparison
    against the threshold of the level that was read. *)
Definition add_xp_data (data : progress) (amount : Z) : bool * progress :=
  let xp := p_xp data + amount in
  let next_level := xp_for_next_level (p_level data) in
  if decide (next_level ≤ xp)
  then (true, Progress (xp - next_level) (p_level data + 1))
  else (false, Progress xp (p_level data)).

(** [add_xp], the event path.  The background task it schedules
    ([check_top_user_change]) is a separate handler, modelled further down. *)
Definition add_xp (user_id guild_id amount : Z) (db : database)
  : (bool * Z) * database :=
  let '(data, db1) := get_user_data user_id guild_id db in
  let '(leveled_up, data') := add_xp_data data amount in
  ((leveled_up, p_level data'),
   update_user_data user_id guild_id (p_xp data') (p_level data') db1).

(** The [while data["xp"] >= next_level] loop of [add_xp_manual], entered
    with the amount already added.  Python integers are unbounded and the
    level may be any integer, so termination is shown on a measure that
    also covers levels below 1, where the threshold is not positive. *)
Definition rollover_measure (xp level : Z) : nat :=
  let n := Z.max 0 (- level) in
  (Z.to_nat (xp + 50 * n * (n + 1)) + Z.to_nat (1 - level))%nat.

Equations rollover (xp level : Z) (leveled_up : bool) : bool * progress
  by wf (rollover_measure xp level) lt :=
rollover xp level leveled_up with Z_le_gt_dec (xp_for_next_level level) xp := {
  | left _ => rollover (xp - xp_for_next_level level) (level + 1) true
  | right _ => (leveled_up, Progress xp level) }.
Next Obligation.
  unfold rollover_measure, xp_for_next_level, LEVEL_MULTIPLIER in *. cbv zeta.
  destruct (Z_le_gt_dec 0 level) as [Hl|Hl].
  - rewrite (Z.max_l 0 (- (level + 1))) by lia.
    rewrite (Z.max_l 0 (- level)) by lia. lia.
  - rewrite (Z.max_r 0 (- (level + 1))) by lia.
    rewrite (Z.max_r 0 (- level)) by lia.
    replace (xp - level * 100 + 50 * - (level + 1) * (- (level + 1) + 1))
      with (xp + 50 * - level * (- level + 1)) by ring.
    assert (0 ≤ xp + 50 * - level * (- level + 1)) by nia.
    lia.
Qed.

Definition add_xp_manual_data (data : progress) (amount : Z) : bool * progress :=
  rollover (p_xp data + amount) (p_level data) false.

(** [add_xp_manual], the admin path. *)
Definition add_xp_manual (user_id guild_id amount : Z) (db : database)
  : (bool * Z) * database :=
  let '(data, db1) := get_user_data user_id guild_id db in
  let '(leveled_up, data') := add_xp_manual_data data amount in
  ((leveled_up, p_level data'),
   update_user_data user_id guild_id (p_xp data') (p_level data') db1).

(** [remove_user_xp]: [max(0, xp - amount)], the level is written back as read. *)
Definition remove_user_xp (user_id guild_id amount : Z) (db : database)
  : Z * database :=
  let '(data, db1) := get_user_data user_id guild_id db in
  let xp := Z.max 0 (p_xp data - amount) in
  (xp, update_user_data user_id guild_id xp (p_level data) db1).

(** [reset_user_xp]: DELETE FROM xp_data WHERE user_id = ? AND guild_id = ?. *)
Definition reset_user_xp (user_id guild_id : Z) (db : database) : database :=
  set_xp_data (delete (user_id, guild_id) (xp_data db)) db.

Definition get_reward_role_id (guild_id : Z) (db : database) : option Z :=
  reward_roles db !! guild_id.

Definition set_reward_role_id (guild_id role_id : Z) (db : database) : database :=
  {| xp_data := xp_data db; reward_roles := <[guild_id := role_id]> (reward_roles db) |}.

(** ** Ranking queries *)

(** A result row of [SELECT user_id, xp, level FROM xp_data WHERE guild_id = ?]. *)
Record rank_row : Type := RankRow { user_id : Z; xp : Z; level : Z }.

#[global] Instance rank_row_eq_dec : EqDecision rank_row.
Proof. solve_decision. Defined.

Definition guild_rows (guild_id : Z) (db : database) : list rank_row :=
  (λ kv : Z * Z * progress, RankRow kv.1.1 (p_xp kv.2) (p_level kv.2))
    <$> filter (λ kv : Z * Z * progress, kv.1.2 = guild_id)
               (map_to_list (xp_data db)).

(** ORDER BY level DESC, xp DESC: [r1] may come before [r2].  SQL leaves
    the order of rows that agree on both columns open; here it is whatever
    the sort makes of the map's enumeration. *)
Definition order_by (r1 r2 : rank_row) : Prop :=
  level r2 < level r1 ∨ (level r2 = level r1 ∧ xp r2 ≤ xp r1).

#[global] Instance order_by_dec : RelDecision order_by.
Proof. intros r1 r2. unfold order_by. apply _. Defined.

Definition ranked_rows (guild_id : Z) (db : database) : list rank_row :=
  merge_sort order_by (guild_rows guild_id db).

(** [... ORDER BY level DESC, xp DESC LIMIT 1], then [int(row["user_id"])]. *)
Definition get_top_user_id (guild_id : Z) (db : database) : option Z :=
  user_id <$> head (ranked_rows guild_id db).

(** The query of [leaderboard_prefix] (and of the slash command):
    [... ORDER BY level DESC, xp DESC LIMIT 10]. *)
Definition leaderboard_prefix (guild_id : Z) (db : database) : list rank_row :=
  take 10 (ranked_rows guild_id db).

(** ** Cooldowns *)

(** Keys of the [cooldowns] dictionary are tuples [(guild_id, user_id)] on
    the message path and [(guild_id, f"react_{id}")] on the reaction path:
    the second component is an integer or a string. *)
Definition subject : Type := Z + string.

Definition message_key (guild_id uid : Z) : Z * subject := (guild_id, inl uid).
Definition react_key (guild_id uid : Z) : Z * subject :=
  (guild_id, inr ("react_" +:+ pretty uid)).

(** [now - cooldowns.get(key, 0) >= duration] *)
Definition cooldown_over (cooldowns : gmap (Z * subject) Z) (key : Z * subject)
    (now duration : Z) : bool :=
  bool_decide (duration ≤ now - default 0 (cooldowns !! key)).

(** ** Process state and event handlers *)

Record bot_state : Type := BotState {
  st_db : database;
  cooldowns : gmap (Z * subject) Z;
  last_top_user : gmap Z Z
}.

Definition initial_state : bot_state :=
  {| st_db := empty_db; cooldowns := ∅; last_top_user := ∅ |}.

(** What the handlers look at in a [discord.User]. *)
Record user : Type := User { u_id : Z; u_bot : bool }.

(** The XP part of [on_message]; [guild] is [message.guild], [now] the
    clock reading and [exp_gain] the value drawn by [random.randint].  This
    is the handler from its start to its end with no other handler running
    in between: the gate is read at the start and [cooldowns] is written
    once [add_xp] has returned.  [message_step] further down has the same
    handler statement by statement.  The [check_top_user_change] task that
    [add_xp] schedules is a handler of its own ([ev_top_check]). *)
Definition on_message (guild : option Z) (author : user) (now exp_gain : Z)
    (st : bot_state) : bot_state :=
  match guild with
  | None => st
  | Some guild_id =>
      if u_bot author then st
      else if cooldown_over (cooldowns st) (message_key guild_id (u_id author)) now XP_COOLDOWN
      then {| st_db := (add_xp (u_id author) guild_id exp_gain (st_db st)).2;
              cooldowns := <[message_key guild_id (u_id author) := now]> (cooldowns st);
              last_top_user := last_top_user st |}
      else st
  end.

(** [on_reaction_add]: the reactor first, then the author of the message
    ([None] when the message has no author object); [exp_gain] and
    [exp_gain_author] are the two random draws.  As for [on_message], this
    is the handler with no other handler running in between, and the
    scheduled [check_top_user_change] tasks are handlers of their own. *)
Definition on_reaction_add (guild : option Z) (reactor : user)
    (author : option user) (now exp_gain exp_gain_author : Z)
    (st : bot_state) : bot_state :=
  match guild with
  | None => st
  | Some guild_id =>
      if u_bot reactor then st
      else
        let st1 :=
          if cooldown_over (cooldowns st) (react_key guild_id (u_id reactor)) now REACTION_COOLDOWN
          then {| st_db := (add_xp (u_id reactor) guild_id exp_gain (st_db st)).2;
                  cooldowns := <[react_key guild_id (u_id reactor) := now]> (cooldowns st);
                  last_top_user := last_top_user st |}
          else st in
        match author with
        | Some a =>
            if u_bot a then st1
            else if cooldown_over (cooldowns st1) (react_key guild_id (u_id a)) now REACTION_COOLDOWN
            then {| st_db := (add_xp (u_id a) guild_id exp_gain_author (st_db st1)).2;
                    cooldowns := <[react_key guild_id (u_id a) := now]> (cooldowns st1);
                    last_top_user := last_top_user st1 |}
            else st1
        | None => st1
        end
  end.

(** ** Admin commands *)

(** What [is_admin_member] looks at in a [discord.Member]. *)
Record member : Type := Member { member_id : Z; administrator : bool }.

Definition is_admin_member (m : option member) : bool :=
  match m with
  | None => false
  | Some m => if decide (member_id m ∈ ADMINS) then true else administrator m
  end.

(** The member listed in [ADMINS], without the guild permission. *)
Definition global_admin : member :=
  {| member_id := 1237644967422459996; administrator := false |}.

(** [!addxp member amount] *)
Definition addxp_prefix (author : member) (target guild_id amount : Z)
    (db : database) : database :=
  if is_admin_member (Some author)
  then (add_xp_manual target guild_id amount db).2
  else db.

(** [!removexp member amount]: the body calls [reset_user_xp]; [amount]
    is not used. *)
Definition removexp_prefix (author : member) (target guild_id amount : Z)
    (db : database) : database :=
  if is_admin_member (Some author)
  then reset_user_xp target guild_id db
  else db.

(** [!rank]: reads through [get_user_data], which creates the default row. *)
Definition rank_prefix (target guild_id : Z) (db : database)
  : progress * database :=
  get_user_data target guild_id db.

(** ** Top-1 role assignment *)

(** The Discord side of a guild, as far as [check_top_user_change] touches
    it: which roles exist, which members are present and the roles each one
    holds, and whether the role endpoints accept the bot's calls (they raise
    otherwise, and the handler catches what they raise). *)
Record guild : Type := Guild {
  g_id : Z;
  g_roles : gset Z;
  g_members : gmap Z (gset Z);
  g_manageable : bool
}.

(** The calls that change roles on Discord. *)
Inductive role_call : Type :=
  | remove_roles (member_id role_id : Z)
  | add_roles (member_id role_id : Z).

Definition set_g_members (ms : gmap Z (gset Z)) (g : guild) : guild :=
  {| g_id := g_id g; g_roles := g_roles g;
     g_members := ms; g_manageable := g_manageable g |}.

(** One role call: it is issued in any case and takes effect when allowed. *)
Definition perform (g : guild) (c : role_call) : guild :=
  if g_manageable g then
    match c with
    | remove_roles m r => set_g_members (alter (λ rs, rs ∖ {[r]}) m (g_members g)) g
    | add_roles m r => set_g_members (alter (λ rs, rs ∪ {[r]}) m (g_members g)) g
    end
  else g.

(** The result of [check_top_user_change]: the guild afterwards, the cache
    [last_top_user] afterwards, and the role calls issued, in order. *)
Record top_check : Type := TopCheck {
  tc_guild : guild;
  tc_last_top_user : gmap Z Z;
  tc_calls : list role_call
}.

(** [if prev:] and the removal under it. *)
Definition remove_from_prev (g : guild) (prev : option Z) (role : Z)
  : list role_call :=
  match prev with
  | Some p =>
      if decide (p = 0) then []
      else
        match g_members g !! p with
        | Some roles => if decide (role ∈ roles) then [remove_roles p role] else []
        | None => []
        end
  | None => []
  end.

(** [new_member = guild.get_member(int(top_id))] and the assignment. *)
Definition assign_to_new (g : guild) (top_id role : Z) : list role_call :=
  match g_members g !! top_id with
  | Some _ => [add_roles top_id role]
  | None => []
  end.

Definition check_top_user_change (g : guild) (db : database)
    (last_top_user : gmap Z Z) : top_check :=
  match get_top_user_id (g_id g) db with
  | None => TopCheck g last_top_user []
  | Some top_id =>
      if decide (top_id = 0) then TopCheck g last_top_user []
      else
        let prev := last_top_user !! g_id g in
        if decide (prev = Some top_id) then TopCheck g last_top_user []
        else
          let cache := <[g_id g := top_id]> last_top_user in
          match get_reward_role_id (g_id g) db with
          | None => TopCheck g cache []
          | Some role =>
              if decide (role = 0) then TopCheck g cache []
              else if decide (role ∈ g_roles g) then
                let calls1 := remove_from_prev g prev role in
                let g1 := foldl perform g calls1 in
                let calls2 := assign_to_new g1 top_id role in
                TopCheck (foldl perform g1 calls2) cache (calls1 ++ calls2)
              else TopCheck g cache []
          end
  end.

(** Counting the calls of one kind in what a check issued. *)
Definition is_remove (c : role_call) : bool :=
  match c with remove_roles _ _ => true | add_roles _ _ => false end.

Definition is_add (c : role_call) : bool :=
  match c with remove_roles _ _ => false | add_roles _ _ => true end.

Definition count_calls (kind : role_call → bool) (calls : list role_call) : nat :=
  length (List.filter kind calls).

(** ** Interleaving of grants

    Handlers are coroutines on one event loop.  [run_db] takes [db_lock]
    around a single statement, so a coroutine owns the database for one
    statement at a time and may be suspended between two of them.  A grant
    in flight is therefore at one of these points of [add_xp]. *)
Inductive grant_pc : Type :=
  | at_select                     (* before the SELECT of [get_user_data] *)
  | at_insert                     (* no row was found: before the INSERT *)
  | at_update (data : progress)   (* [data] computed: before the UPDATE *)
  | finished.

Record grant_task : Type := GrantTask {
  t_user : Z;
  t_guild : Z;
  t_amount : Z;
  t_pc : grant_pc
}.

Definition set_pc (pc : grant_pc) (t : grant_task) : grant_task :=
  {| t_user := t_user t; t_guild := t_guild t; t_amount := t_amount t; t_pc := pc |}.

Definition new_grant (user_id guild_id amount : Z) : grant_task :=
  GrantTask user_id guild_id amount at_select.

(** One statement of the task, run while it holds [db_lock]; the code up
    to the next statement runs with it. *)
Definition task_step (t : grant_task) (db : database) : grant_task * database :=
  match t_pc t with
  | at_select =>
      match xp_data db !! (t_user t, t_guild t) with
      | Some row => (set_pc (at_update (add_xp_data row (t_amount t)).2) t, db)
      | None => (set_pc at_insert t, db)
      end
  | at_insert =>
      (set_pc (at_update (add_xp_data (Progress 0 1) (t_amount t)).2) t,
       set_xp_data (<[(t_user t, t_guild t) := Progress 0 1]> (xp_data db)) db)
  | at_update data =>
      (set_pc finished t,
       update_user_data (t_user t) (t_guild t) (p_xp data) (p_level data) db)
  | finished => (t, db)
  end.

(** A schedule names, step by step, the task that gets the lock next. *)
Fixpoint run_schedule (schedule : list nat) (tasks : list grant_task)
    (db : database) : list grant_task * database :=
  match schedule with
  | [] => (tasks, db)
  | i :: schedule' =>
      match tasks !! i with
      | Some t =>
          let '(t', db') := task_step t db in
          run_schedule schedule' (<[i := t']> tasks) db'
      | None => run_schedule schedule' tasks db
      end
  end.

Definition all_finished (tasks : list grant_task) : bool :=
  forallb (λ t, match t_pc t with finished => true | _ => false end) tasks.

(** ** Runs of the bot

    What reaches the handlers, one event at a time: messages and reactions
    with their clock reading and random draws, the admin commands, [!rank]
    and [!setrewardrole], and a top-user check on some guild (scheduled by
    [add_xp] or by the periodic task).  [handle] runs each handler from its
    start to its end before the next one begins; handlers whose statements
    overlap are the subject of [run_schedule], [run_messages] and
    [reaction_step]. *)
Inductive event : Type :=
  | ev_message (guild : option Z) (author : user) (now exp_gain : Z)
  | ev_reaction (guild : option Z) (reactor : user) (author : option user)
      (now exp_gain exp_gain_author : Z)
  | ev_addxp (author : member) (target guild_id amount : Z)
  | ev_removexp (author : member) (target guild_id amount : Z)
  | ev_rank (target guild_id : Z)
  | ev_setrewardrole (author : member) (guild_id role_id : Z)
  | ev_top_check (g : guild).

Definition set_st_db (d : database) (st : bot_state) : bot_state :=
  {| st_db := d; cooldowns := cooldowns st; last_top_user := last_top_user st |}.

Definition handle (st : bot_state) (e : event) : bot_state :=
  match e with
  | ev_message guild author now exp_gain => on_message guild author now exp_gain st
  | ev_reaction guild reactor author now exp_gain exp_gain_author =>
      on_reaction_add guild reactor author now exp_gain exp_gain_author st
  | ev_addxp author target guild_id amount =>
      set_st_db (addxp_prefix author target guild_id amount (st_db st)) st
  | ev_removexp author target guild_id amount =>
      set_st_db (removexp_prefix author target guild_id amount (st_db st)) st
  | ev_rank target guild_id => set_st_db (rank_prefix target guild_id (st_db st)).2 st
  | ev_setrewardrole author guild_id role_id =>
      if is_admin_member (Some author)
      then set_st_db (set_reward_role_id guild_id role_id (st_db st)) st
      else st
  | ev_top_check g =>
      {| st_db := st_db st; cooldowns := cooldowns st;
         last_top_user := tc_last_top_user (check_top_user_change g (st_db st) (last_top_user st)) |}
  end.

(** [random.randint(lo, hi)] draws from the closed range. *)
Definition randint (range : Z * Z) (x : Z) : Prop := range.1 ≤ x ≤ range.2.

Definition drawn (e : event) : Prop :=
  match e with
  | ev_message _ _ _ exp_gain => randint XP_PER_MESSAGE exp_gain
  | ev_reaction _ _ _ _ exp_gain exp_gain_author =>
      randint XP_PER_REACTION exp_gain ∧ randint XP_PER_REACTION exp_gain_author
  | _ => True
  end.

(** States the bot gets to from an empty database. *)
Inductive reachable : bot_state → Prop :=
  | reachable_initial : reachable initial_state
  | reachable_handle st e : reachable st → drawn e → reachable (handle st e).

(** The stored row satisfies the bound of the data model. *)
Definition within_level (p : progress) : Prop :=
  1 ≤ p_level p ∧ p_xp p < xp_for_next_level (p_level p).

Definition rows_within_level (db : database) : Prop :=
  ∀ k p, xp_data db !! k = Some p → within_level p.

(** ** Further parts of the bot *)

(** The thresholds the loop subtracts on its way up from level [from]
    through [n] levels, one after the other. *)
Fixpoint thresholds_from (from : Z) (n : nat) : Z :=
  match n with
  | O => 0
  | S n' => xp_for_next_level from + thresholds_from (from + 1) n'
  end.

(** [guild_settings] has PRIMARY KEY guild_id and a nullable column
    [levelup_channel]. *)
Definition get_level_channel_id (guild_id : Z) (guild_settings : gmap Z (option Z))
  : option Z :=
  match guild_settings !! guild_id with
  | Some (Some channel_id) => Some channel_id
  | _ => None
  end.

Definition set_level_channel_id (guild_id channel_id : Z)
    (guild_settings : gmap Z (option Z)) : gmap Z (option Z) :=
  <[guild_id := Some channel_id]> guild_settings.

(** [!setlevelchannel #channel] *)
Definition setlevelchannel_prefix (author : member) (guild_id channel_id : Z)
    (guild_settings : gmap Z (option Z)) : gmap Z (option Z) :=
  if is_admin_member (Some author)
  then set_level_channel_id guild_id channel_id guild_settings
  else guild_settings.

(** [!setrewardrole @role] *)
Definition setrewardrole_prefix (author : member) (guild_id role_id : Z)
    (db : database) : database :=
  if is_admin_member (Some author)
  then set_reward_role_id guild_id role_id db
  else db.

(** Where [on_message] sends the level-up embed: the configured channel
    when [channel_id] is truthy, looked up with [guild.get_channel] among the
    guild's [channels]; the channel of the message otherwise.  When the
    lookup finds nothing, [ch.send] raises on [None], the handler swallows
    it and nothing is sent. *)
Definition level_up_channel (guild_settings : gmap Z (option Z))
    (channels : gset Z) (guild_id message_channel : Z) : option Z :=
  match get_level_channel_id guild_id guild_settings with
  | Some channel_id =>
      if decide (channel_id = 0) then Some message_channel
      else if decide (channel_id ∈ channels) then Some channel_id else None
  | None => Some message_channel
  end.

(** The level-up embed of [on_message], as the channel it goes to and the
    level it names; [None] when none is sent. *)
Definition on_message_level_up (guild_settings : gmap Z (option Z))
    (channels : gset Z) (guild : option Z) (author : user)
    (message_channel now exp_gain : Z) (st : bot_state) : option (Z * Z) :=
  match guild with
  | None => None
  | Some guild_id =>
      if u_bot author then None
      else if cooldown_over (cooldowns st) (message_key guild_id (u_id author)) now XP_COOLDOWN
      then
        let '(leveled_up, level) := (add_xp (u_id author) guild_id exp_gain (st_db st)).1 in
        if leveled_up
        then (λ ch, (ch, level)) <$> level_up_channel guild_settings channels guild_id message_channel
        else None
      else None
  end.

(** [periodic_top_check]: one [check_top_user_change] per guild of
    [bot.guilds], in order, on the cache the previous one left.  The result
    lists the guilds afterwards and all role calls issued. *)
Record sweep : Type := Sweep {
  sw_guilds : list guild;
  sw_last_top_user : gmap Z Z;
  sw_calls : list role_call
}.

Definition sweep_guild (db : database) (acc : sweep) (g : guild) : sweep :=
  let r := check_top_user_change g db (sw_last_top_user acc) in
  {| sw_guilds := sw_guilds acc ++ [tc_guild r];
     sw_last_top_user := tc_last_top_user r;
     sw_calls := sw_calls acc ++ tc_calls r |}.

Definition periodic_top_check (guilds : list guild) (db : database)
    (last_top_user : gmap Z Z) : sweep :=
  foldl (sweep_guild db) (Sweep [] last_top_user []) guilds.

(** The channel [on_guild_join] greets in: [guild.system_channel], else
    the first of [guild.text_channels] the bot may send to (each channel is
    given with that permission); [None] when the handler returns early. *)
Fixpoint first_sendable (text_channels : list (Z * bool)) : option Z :=
  match text_channels with
  | [] => None
  | ch :: rest => if ch.2 then Some ch.1 else first_sendable rest
  end.

Definition on_guild_join (system_channel : option Z)
    (text_channels : list (Z * bool)) : option Z :=
  match system_channel with
  | Some channel => Some channel
  | None => first_sendable text_channels
  end.

(** The row a grant in flight works on, and what it is to leave there:
    [add_xp_data] of the row it found, or of the default row. *)
Definition task_key (t : grant_task) : Z * Z := (t_user t, t_guild t).

Definition granted (row : option progress) (amount : Z) : progress :=
  (add_xp_data (default (Progress 0 1) row) amount).2.

(** The cache names the detected leader of the guild, when there is one
    the check accepts. *)
Definition cache_current (db : database) (cache : gmap Z Z) (gid : Z) : Prop :=
  ∀ top_id, get_top_user_id gid db = Some top_id → top_id ≠ 0 →
            cache !! gid = Some top_id.

(** Where a grant in flight stands with respect to the rows at the start:
    only this grant writes under its key. *)
Definition task_inv (rows : gmap (Z * Z) progress) (db : database)
    (t : grant_task) : Prop :=
  match t_pc t with
  | at_select => xp_data db !! task_key t = rows !! task_key t
  | at_insert => rows !! task_key t = None ∧ xp_data db !! task_key t = None
  | at_update data =>
      data = granted (rows !! task_key t) (t_amount t)
      ∧ xp_data db !! task_key t = Some (default (Progress 0 1) (rows !! task_key t))
  | finished =>
      xp_data db !! task_key t = Some (granted (rows !! task_key t) (t_amount t))
  end.

(** ** Binding into SQLite

    [cur.execute] binds its parameters before the statement runs.  SQLite's
    INTEGER is a signed 64-bit integer: a Python integer outside that range
    makes the binding raise OverflowError, the statement does not run, and
    none of the helpers catches the exception. *)
Definition sqlite_integer (x : Z) : Prop := - 2 ^ 63 ≤ x < 2 ^ 63.

#[global] Instance sqlite_integer_dec x : Decision (sqlite_integer x).
Proof. unfold sqlite_integer. apply _. Defined.

(** What a helper gives back: its result, or the OverflowError it lets
    through. *)
Inductive outcome (A : Type) : Type :=
  | returned (a : A)
  | raised.

Arguments returned {A} a.
Arguments raised {A}.

(** [get_user_data] binds (user_id, guild_id) in its SELECT (and again in
    the INSERT). *)
Definition get_user_data_sqlite (user_id guild_id : Z) (db : database)
  : outcome progress * database :=
  if decide (sqlite_integer user_id ∧ sqlite_integer guild_id)
  then (returned (get_user_data user_id guild_id db).1,
        (get_user_data user_id guild_id db).2)
  else (raised, db).

(** [update_user_data] binds (xp, level, user_id, guild_id). *)
Definition update_user_data_sqlite (user_id guild_id xp level : Z) (db : database)
  : outcome unit * database :=
  if decide (sqlite_integer xp ∧ sqlite_integer level
             ∧ sqlite_integer user_id ∧ sqlite_integer guild_id)
  then (returned tt, update_user_data user_id guild_id xp level db)
  else (raised, db).

(** [remove_user_xp] with the binding: the default row that
    [get_user_data] inserted stays when the UPDATE raises. *)
Definition remove_user_xp_sqlite (user_id guild_id amount : Z) (db : database)
  : outcome Z * database :=
  match get_user_data_sqlite user_id guild_id db with
  | (returned data, db1) =>
      let xp := Z.max 0 (p_xp data - amount) in
      match update_user_data_sqlite user_id guild_id xp (p_level data) db1 with
      | (returned _, db2) => (returned xp, db2)
      | (raised, db2) => (raised, db2)
      end
  | (raised, db1) => (raised, db1)
  end.

(** [add_xp_manual] with the binding. *)
Definition add_xp_manual_sqlite (user_id guild_id amount : Z) (db : database)
  : outcome (bool * Z) * database :=
  match get_user_data_sqlite user_id guild_id db with
  | (returned data, db1) =>
      let '(leveled_up, data') := add_xp_manual_data data amount in
      match update_user_data_sqlite user_id guild_id (p_xp data') (p_level data') db1 with
      | (returned _, db2) => (returned (leveled_up, p_level data'), db2)
      | (raised, db2) => (raised, db2)
      end
  | (raised, db1) => (raised, db1)
  end.

(** [!addxp member amount] with the binding; the command lets the
    exception through as well. *)
Definition addxp_prefix_sqlite (author : member) (target guild_id amount : Z)
    (db : database) : outcome unit * database :=
  if is_admin_member (Some author)
  then
    match add_xp_manual_sqlite target guild_id amount db with
    | (returned _, db') => (returned tt, db')
    | (raised, db') => (raised, db')
    end
  else (returned tt, db).

(** The UPDATE of [add_xp] binds its parameters when it is to write what
    [add_xp_data] computes from [row]: (xp, level, user_id, guild_id) all fit
    a SQLite INTEGER. *)
Definition grant_binds (user_id guild_id : Z) (row : progress) (amount : Z) : Prop :=
  sqlite_integer user_id ∧ sqlite_integer guild_id
  ∧ sqlite_integer (p_xp (add_xp_data row amount).2)
  ∧ sqlite_integer (p_level (add_xp_data row amount).2).

#[global] Instance grant_binds_dec u g row amount : Decision (grant_binds u g row amount).
Proof. unfold grant_binds. apply _. Defined.

(** ** [on_message], statement by statement

    The handler reads the gate when it starts, then awaits the statements
    of [add_xp] one by one, and writes [cooldowns] in the step in which
    [add_xp] returns.  Other handlers can run between two of its steps. *)
Inductive message_pc : Type :=
  | msg_gate                  (* started: before the gate is read *)
  | msg_grant (pc : grant_pc) (* gate passed: inside [add_xp] *)
  | msg_done.

Record message_task : Type := MessageTask {
  mt_guild : Z;
  mt_author : Z;
  mt_now : Z;
  mt_gain : Z;
  mt_pc : message_pc
}.

Definition set_mt_pc (pc : message_pc) (t : message_task) : message_task :=
  {| mt_guild := mt_guild t; mt_author := mt_author t; mt_now := mt_now t;
     mt_gain := mt_gain t; mt_pc := pc |}.

(** A message of a member who is not a bot, in a guild. *)
Definition new_message (guild_id author now exp_gain : Z) : message_task :=
  MessageTask guild_id author now exp_gain msg_gate.

Definition message_step (t : message_task) (st : bot_state)
  : message_task * bot_state :=
  match mt_pc t with
  | msg_gate =>
      if cooldown_over (cooldowns st) (message_key (mt_guild t) (mt_author t))
           (mt_now t) XP_COOLDOWN
      then (set_mt_pc (msg_grant at_select) t, st)
      else (set_mt_pc msg_done t, st)
  | msg_grant pc =>
      let '(gt, db') :=
        task_step (GrantTask (mt_author t) (mt_guild t) (mt_gain t) pc) (st_db st) in
      match t_pc gt with
      | finished =>
          (set_mt_pc msg_done t,
           {| st_db := db';
              cooldowns := <[message_key (mt_guild t) (mt_author t) := mt_now t]>
                             (cooldowns st);
              last_top_user := last_top_user st |})
      | pc' =>
          (set_mt_pc (msg_grant pc') t,
           {| st_db := db'; cooldowns := cooldowns st;
              last_top_user := last_top_user st |})
      end
  | msg_done => (t, st)
  end.

Fixpoint run_messages (schedule : list nat) (tasks : list message_task)
    (st : bot_state) : list message_task * bot_state :=
  match schedule with
  | [] => (tasks, st)
  | i :: schedule' =>
      match tasks !! i with
      | Some t =>
          let '(t', st') := message_step t st in
          run_messages schedule' (<[i := t']> tasks) st'
      | None => run_messages schedule' tasks st
      end
  end.

(** ** [on_reaction_add], statement by statement

    The reactor's part first, then the author's: each reads its gate, awaits
    the statements of [add_xp] and writes its [cooldowns] entry in the step
    in which [add_xp] returns. *)
Inductive reaction_pc : Type :=
  | react_gate                         (* started: before the reactor's gate is read *)
  | react_grant (pc : grant_pc)        (* inside [add_xp] for the reactor *)
  | react_author                       (* before the author's gate is read *)
  | react_author_grant (pc : grant_pc) (* inside [add_xp] for the author *)
  | react_done.

Record reaction_task : Type := ReactionTask {
  rt_guild : Z;
  rt_reactor : Z;
  rt_author : option user;
  rt_now : Z;
  rt_gain : Z;
  rt_gain_author : Z;
  rt_pc : reaction_pc
}.

Definition set_rt_pc (pc : reaction_pc) (t : reaction_task) : reaction_task :=
  {| rt_guild := rt_guild t; rt_reactor := rt_reactor t; rt_author := rt_author t;
     rt_now := rt_now t; rt_gain := rt_gain t; rt_gain_author := rt_gain_author t;
     rt_pc := pc |}.

(** A reaction of a user who is not a bot, on a message in a guild. *)
Definition new_reaction (guild_id reactor : Z) (author : option user)
    (now exp_gain exp_gain_author : Z) : reaction_task :=
  ReactionTask guild_id reactor author now exp_gain exp_gain_author react_gate.

Definition reaction_step (t : reaction_task) (st : bot_state)
  : reaction_task * bot_state :=
  match rt_pc t with
  | react_gate =>
      if cooldown_over (cooldowns st) (react_key (rt_guild t) (rt_reactor t))
           (rt_now t) REACTION_COOLDOWN
      then (set_rt_pc (react_grant at_select) t, st)
      else (set_rt_pc react_author t, st)
  | react_grant pc =>
      let '(gt, db') :=
        task_step (GrantTask (rt_reactor t) (rt_guild t) (rt_gain t) pc) (st_db st) in
      match t_pc gt with
      | finished =>
          (set_rt_pc react_author t,
           {| st_db := db';
              cooldowns := <[react_key (rt_guild t) (rt_reactor t) := rt_now t]>
                             (cooldowns st);
              last_top_user := last_top_user st |})
      | pc' =>
          (set_rt_pc (react_grant pc') t,
           {| st_db := db'; cooldowns := cooldowns st;
              last_top_user := last_top_user st |})
      end
  | react_author =>
      match rt_author t with
      | Some a =>
          if u_bot a then (set_rt_pc react_done t, st)
          else if cooldown_over (cooldowns st) (react_key (rt_guild t) (u_id a))
                    (rt_now t) REACTION_COOLDOWN
          then (set_rt_pc (react_author_grant at_select) t, st)
          else (set_rt_pc react_done t, st)
      | None => (set_rt_pc react_done t, st)
      end
  | react_author_grant pc =>
      match rt_author t with
      | Some a =>
          let '(gt, db') :=
            task_step (GrantTask (u_id a) (rt_guild t) (rt_gain_author t) pc) (st_db st) in
          match t_pc gt with
          | finished =>
              (set_rt_pc react_done t,
               {| st_db := db';
                  cooldowns := <[react_key (rt_guild t) (u_id a) := rt_now t]>
                                 (cooldowns st);
                  last_top_user := last_top_user st |})
          | pc' =>
              (set_rt_pc (react_author_grant pc') t,
               {| st_db := db'; cooldowns := cooldowns st;
                  last_top_user := last_top_user st |})
          end
      | None => (set_rt_pc react_done t, st)
      end
  | react_done => (t, st)
  end.

(** The handler run for [fuel] steps with no other handler in between. *)
Fixpoint run_reaction (fuel : nat) (t : reaction_task) (st : bot_state)
  : reaction_task * bot_state :=
  match fuel with
  | O => (t, st)
  | S fuel' => let '(t', st') := reaction_step t st in run_reaction fuel' t' st'
  end.

(** * Properties *)

(** ** The rollover loop *)

Section Rollover.

Lemma rollover_continue xp level leveled_up :
  xp_for_next_level level ≤ xp →
  rollover xp level leveled_up
  = rollover (xp - xp_for_next_level level) (level + 1) true.
Proof.
  intros Hge. rewrite rollover_equation_1.
  destruct (Z_le_gt_dec (xp_for_next_level level) xp); [reflexivity | lia].
Qed.

Lemma rollover_exit xp level leveled_up :
  xp < xp_for_next_level level →
  rollover xp level leveled_up = (leveled_up, Progress xp level).
Proof.
  intros Hlt. rewrite rollover_equation_1.
  destruct (Z_le_gt_dec (xp_for_next_level level) xp); [lia | reflexivity].
Qed.

(** Induction along the iterations of the loop. *)
Lemma rollover_loop_ind (P : Z → Z → bool → bool * progress → Prop) :
  (∀ xp level leveled_up,
      xp < xp_for_next_level level →
      P xp level leveled_up (leveled_up, Progress xp level)) →
  (∀ xp level leveled_up,
      xp_for_next_level level ≤ xp →
      P (xp - xp_for_next_level level) (level + 1) true
        (rollover (xp - xp_for_next_level level) (level + 1) true) →
      P xp level leveled_up
        (rollover (xp - xp_for_next_level level) (level + 1) true)) →
  ∀ xp level leveled_up, P xp level leveled_up (rollover xp level leveled_up).
Proof.
  intros Hexit Hcont xp level leveled_up.
  funelim (rollover xp level leveled_up).
  - apply Hcont; [assumption | apply H; assumption].
  - apply Hexit. lia.
Qed.

(** On exit the loop condition is false. *)
Lemma rollover_converges xp level leveled_up :
  p_xp (rollover xp level leveled_up).2
  < xp_for_next_level (p_level (rollover xp level leveled_up).2).
Proof.
  apply (rollover_loop_ind (λ _ _ _ r, p_xp r.2 < xp_for_next_level (p_level r.2)));
    simpl; auto.
Qed.

Lemma rollover_level_le xp level leveled_up :
  level ≤ p_level (rollover xp level leveled_up).2.
Proof.
  apply (rollover_loop_ind (λ _ level _ r, level ≤ p_level r.2)); simpl; lia.
Qed.


(** The progress that comes out does not depend on the flag that goes in. *)
Lemma rollover_progress_flag xp level f1 f2 :
  (rollover xp level f1).2 = (rollover xp level f2).2.
Proof.
  revert f2.
  apply (rollover_loop_ind (λ xp level _ r, ∀ f2, r.2 = (rollover xp level f2).2)).
  - intros x l f Hlt f2. by rewrite rollover_exit.
  - intros x l _ Hge _ f2. by rewrite (rollover_continue x l f2).
Qed.

(** Adding [b ≥ 0] before the loop, or after it and looping again, ends in
    the same progress: every iteration taken without [b] is also taken
    with it. *)
Lemma rollover_split xp level b f1 f2 f3 :
  0 ≤ b →
  (rollover (p_xp (rollover xp level f1).2 + b)
            (p_level (rollover xp level f1).2) f2).2
  = (rollover (xp + b) level f3).2.
Proof.
  intros Hb. revert f2 f3.
  apply (rollover_loop_ind (λ xp level _ r, ∀ f2 f3,
    (rollover (p_xp r.2 + b) (p_level r.2) f2).2 = (rollover (xp + b) level f3).2)).
  - intros x l f _ f2 f3. simpl. apply rollover_progress_flag.
  - intros x l _ Hge IH f2 f3.
    rewrite (rollover_continue (x + b) l f3) by lia.
    replace (x + b - xp_for_next_level l) with (x - xp_for_next_level l + b) by lia.
    apply IH.
Qed.

End Rollover.

(** ** Reads and writes of [xp_data] *)

Section Store.

Implicit Types (db : database) (p : progress).

Lemma get_user_data_row u g db :
  xp_data (get_user_data u g db).2 !! (u, g) = Some (get_user_data u g db).1.
Proof.
  unfold get_user_data. destruct (xp_data db !! (u, g)) eqn:Hrow; simpl.
  - exact Hrow.
  - apply lookup_insert_eq.
Qed.

Lemma get_user_data_reward_roles u g db :
  reward_roles (get_user_data u g db).2 = reward_roles db.
Proof. unfold get_user_data. by destruct (xp_data db !! (u, g)). Qed.

(** After the read, the UPDATE finds its row: reading and then writing
    amounts to putting the new row under the key. *)
Lemma update_after_get u g x l db :
  update_user_data u g x l (get_user_data u g db).2
  = set_xp_data (<[(u, g) := Progress x l]> (xp_data db)) db.
Proof.
  unfold update_user_data, get_user_data, set_xp_data.
  destruct (xp_data db !! (u, g)) eqn:Hrow; simpl; f_equal.
  - apply map_eq. intros k. rewrite lookup_alter, lookup_insert.
    case_decide; subst; by rewrite ?Hrow.
  - by rewrite alter_insert_eq.
Qed.

Lemma add_xp_db u g amount db :
  (add_xp u g amount db).2
  = set_xp_data (<[(u, g) := (add_xp_data (get_user_data u g db).1 amount).2]>
                   (xp_data db)) db.
Proof.
  unfold add_xp. destruct (get_user_data u g db) as [data db1] eqn:Hget.
  destruct (add_xp_data data amount) as [f [x l]] eqn:Hdata. simpl.
  replace db1 with (get_user_data u g db).2 by (by rewrite Hget).
  rewrite ?Hdata. apply update_after_get.
Qed.

Lemma add_xp_manual_db u g amount db :
  (add_xp_manual u g amount db).2
  = set_xp_data (<[(u, g) := (add_xp_manual_data (get_user_data u g db).1 amount).2]>
                   (xp_data db)) db.
Proof.
  unfold add_xp_manual. destruct (get_user_data u g db) as [data db1] eqn:Hget.
  destruct (add_xp_manual_data data amount) as [f [x l]] eqn:Hdata. simpl.
  replace db1 with (get_user_data u g db).2 by (by rewrite Hget).
  rewrite ?Hdata. apply update_after_get.
Qed.

Lemma add_xp_manual_result u g amount db :
  (add_xp_manual u g amount db).1
  = ((add_xp_manual_data (get_user_data u g db).1 amount).1,
     p_level (add_xp_manual_data (get_user_data u g db).1 amount).2).
Proof.
  unfold add_xp_manual. destruct (get_user_data u g db) as [data db1]. simpl.
  by destruct (add_xp_manual_data data amount) as [f [x l]].
Qed.

Lemma remove_user_xp_db u g amount db :
  (remove_user_xp u g amount db).2
  = set_xp_data (<[(u, g) := Progress (Z.max 0 (p_xp (get_user_data u g db).1 - amount))
                                      (p_level (get_user_data u g db).1)]>
                   (xp_data db)) db.
Proof.
  unfold remove_user_xp. destruct (get_user_data u g db) as [data db1] eqn:Hget.
  simpl. replace db1 with (get_user_data u g db).2 by (by rewrite Hget).
  apply update_after_get.
Qed.

(** What a read finds once the row has been put. *)
Lemma get_user_data_put u g p db :
  (get_user_data u g (set_xp_data (<[(u, g) := p]> (xp_data db)) db)).1 = p.
Proof. unfold get_user_data. simpl. by rewrite lookup_insert_eq. Qed.

Lemma put_put u g p q db :
  set_xp_data (<[(u, g) := q]>
    (xp_data (set_xp_data (<[(u, g) := p]> (xp_data db)) db)))
    (set_xp_data (<[(u, g) := p]> (xp_data db)) db)
  = set_xp_data (<[(u, g) := q]> (xp_data db)) db.
Proof. unfold set_xp_data. simpl. by rewrite insert_insert_eq. Qed.

End Store.

(** ** The bound [xp < xp_for_next_level level] along runs *)

Section Invariant.

Implicit Types (db : database) (p : progress) (st : bot_state).

Lemma within_level_default : within_level (Progress 0 1).
Proof. unfold within_level, xp_for_next_level, LEVEL_MULTIPLIER. simpl. lia. Qed.

(** One comparison is enough for what an event can add. *)
Lemma add_xp_data_within p amount :
  within_level p → amount ≤ LEVEL_MULTIPLIER →
  within_level (add_xp_data p amount).2.
Proof.
  unfold within_level, add_xp_data, xp_for_next_level, LEVEL_MULTIPLIER.
  intros [Hl Hx] Ha. case_decide; simpl; lia.
Qed.

Lemma add_xp_manual_data_within p amount :
  1 ≤ p_level p → within_level (add_xp_manual_data p amount).2.
Proof.
  intros Hl. unfold add_xp_manual_data. split.
  - pose proof (rollover_level_le (p_xp p + amount) (p_level p) false). lia.
  - apply rollover_converges.
Qed.

Lemma get_user_data_within u g db :
  rows_within_level db → within_level (get_user_data u g db).1.
Proof.
  intros Hdb. unfold get_user_data.
  destruct (xp_data db !! (u, g)) eqn:Hrow; simpl.
  - by apply (Hdb (u, g)).
  - apply within_level_default.
Qed.

Lemma rows_within_level_put u g p db :
  rows_within_level db → within_level p →
  rows_within_level (set_xp_data (<[(u, g) := p]> (xp_data db)) db).
Proof.
  intros Hdb Hp k q. simpl. rewrite lookup_insert.
  case_decide; [intros [= <-]; exact Hp | apply Hdb].
Qed.

Lemma add_xp_rows_within u g amount db :
  rows_within_level db → amount ≤ LEVEL_MULTIPLIER →
  rows_within_level (add_xp u g amount db).2.
Proof.
  intros Hdb Ha. rewrite add_xp_db.
  auto using rows_within_level_put, add_xp_data_within, get_user_data_within.
Qed.

Lemma add_xp_manual_rows_within u g amount db :
  rows_within_level db → rows_within_level (add_xp_manual u g amount db).2.
Proof.
  intros Hdb. rewrite add_xp_manual_db.
  apply rows_within_level_put; [done|].
  apply add_xp_manual_data_within, (get_user_data_within u g db Hdb).
Qed.

Lemma reset_user_xp_rows_within u g db :
  rows_within_level db → rows_within_level (reset_user_xp u g db).
Proof.
  intros Hdb k q. simpl. rewrite lookup_delete.
  case_decide; [done | apply Hdb].
Qed.

Lemma get_user_data_rows_within u g db :
  rows_within_level db → rows_within_level (get_user_data u g db).2.
Proof.
  intros Hdb. unfold get_user_data.
  destruct (xp_data db !! (u, g)); simpl; [done|].
  apply rows_within_level_put; [done | apply within_level_default].
Qed.

Lemma randint_le_multiplier range x :
  range = XP_PER_MESSAGE ∨ range = XP_PER_REACTION →
  randint range x → x ≤ LEVEL_MULTIPLIER.
Proof.
  unfold randint, XP_PER_MESSAGE, XP_PER_REACTION, LEVEL_MULTIPLIER.
  intros [-> | ->]; simpl; lia.
Qed.

Lemma handle_rows_within st e :
  rows_within_level (st_db st) → drawn e → rows_within_level (st_db (handle st e)).
Proof.
  intros Hst He.
  destruct e as [gd author now gain | gd reactor author now gain gain_a
                | author target gid amount | author target gid amount
                | target gid | author gid role | g]; simpl in *.
  - unfold on_message. destruct gd as [gid|]; [|done].
    destruct (u_bot author); [done|]. case_match; [|done]. simpl.
    apply add_xp_rows_within; [done|].
    eapply randint_le_multiplier; [by left | done].
  - destruct He as [He1 He2]. unfold on_reaction_add.
    destruct gd as [gid|]; [|done]. destruct (u_bot reactor); [done|].
    assert (gain ≤ LEVEL_MULTIPLIER ∧ gain_a ≤ LEVEL_MULTIPLIER)
      as [Hg1 Hg2] by (split; eapply randint_le_multiplier; eauto).
    repeat (case_match; simpl; try done);
      repeat apply add_xp_rows_within; done.
  - unfold addxp_prefix. case_match; [|done]. by apply add_xp_manual_rows_within.
  - unfold removexp_prefix. case_match; [|done]. by apply reset_user_xp_rows_within.
  - by apply get_user_data_rows_within.
  - by case_match.
  - done.
Qed.

Lemma reachable_rows_within st : reachable st → rows_within_level (st_db st).
Proof.
  induction 1 as [|st e _ IH He].
  - intros k p. simpl. by rewrite lookup_empty.
  - by apply handle_rows_within.
Qed.

End Invariant.

(** ** The leveling operations on stored rows *)

Section Leveling.

Implicit Types (db : database) (p : progress).

(** The admin path leaves no overflow, whatever the row and the amount. *)
Lemma add_xp_manual_converges u g amount db :
  ∃ p, xp_data (add_xp_manual u g amount db).2 !! (u, g) = Some p
       ∧ p_xp p < xp_for_next_level (p_level p).
Proof.
  rewrite add_xp_manual_db. eexists. split.
  - simpl. apply lookup_insert_eq.
  - apply rollover_converges.
Qed.

(** The event path agrees with the admin path as long as the amount
    does not get past the threshold after the next one. *)
Lemma add_xp_data_agrees p amount :
  p_xp p + amount < xp_for_next_level (p_level p) + xp_for_next_level (p_level p + 1) →
  add_xp_data p amount = add_xp_manual_data p amount.
Proof.
  intros Hlt. unfold add_xp_data, add_xp_manual_data. case_decide as Hge.
  - rewrite rollover_continue, rollover_exit by lia. reflexivity.
  - rewrite rollover_exit by lia. reflexivity.
Qed.

(** On the rows and the draws that occur in a run, the single comparison
    of the event path is the whole loop. *)
Lemma add_xp_agrees_in_range u g amount st :
  reachable st → 0 ≤ amount ≤ LEVEL_MULTIPLIER →
  add_xp u g amount (st_db st) = add_xp_manual u g amount (st_db st).
Proof.
  intros Hst Ha. unfold add_xp, add_xp_manual.
  pose proof (get_user_data_within u g _ (reachable_rows_within st Hst)) as [Hl Hx].
  destruct (get_user_data u g (st_db st)) as [data db1]. simpl in *.
  rewrite add_xp_data_agrees; [done|].
  unfold xp_for_next_level, LEVEL_MULTIPLIER in *. lia.
Qed.

(** Two admin grants in a row are one grant of the sum, as soon as the
    second amount is not negative. *)
Lemma add_xp_manual_twice u g a b db :
  0 ≤ b →
  (add_xp_manual u g b (add_xp_manual u g a db).2).2 = (add_xp_manual u g (a + b) db).2
  ∧ (add_xp_manual u g b (add_xp_manual u g a db).2).1.2
    = (add_xp_manual u g (a + b) db).1.2.
Proof.
  intros Hb.
  assert ((add_xp_manual_data
             (get_user_data u g (add_xp_manual u g a db).2).1 b).2
          = (add_xp_manual_data (get_user_data u g db).1 (a + b)).2) as Hdata.
  { rewrite add_xp_manual_db, get_user_data_put. unfold add_xp_manual_data.
    rewrite Z.add_assoc. by apply rollover_split. }
  split.
  - rewrite (add_xp_manual_db u g b), Hdata.
    rewrite (add_xp_manual_db u g a), put_put. symmetry. apply add_xp_manual_db.
  - rewrite !add_xp_manual_result. simpl. by rewrite Hdata.
Qed.

(** The same for two event grants, on the rows of a run and as long as the
    total stays within one threshold step. *)
Lemma add_xp_twice_in_range u g a b st :
  reachable st → 0 ≤ a → 0 ≤ b → a + b ≤ LEVEL_MULTIPLIER →
  (add_xp u g b (add_xp u g a (st_db st)).2).2 = (add_xp u g (a + b) (st_db st)).2.
Proof.
  intros Hst Ha Hb Hab.
  rewrite (add_xp_agrees_in_range u g a st), (add_xp_agrees_in_range u g (a + b) st)
    by (done || lia).
  assert (reachable (handle st (ev_addxp global_admin u g a))) as Hst'
    by (by apply reachable_handle).
  pose proof (add_xp_agrees_in_range u g b _ Hst') as Hagree. simpl in Hagree.
  unfold addxp_prefix in Hagree. simpl in Hagree.
  rewrite Hagree by lia. by apply add_xp_manual_twice.
Qed.

Lemma add_xp_manual_negative u g amount db :
  p_xp (get_user_data u g db).1 < xp_for_next_level (p_level (get_user_data u g db).1) →
  amount < 0 →
  (add_xp_manual u g amount db).1 = (false, p_level (get_user_data u g db).1)
  ∧ xp_data (add_xp_manual u g amount db).2 !! (u, g)
    = Some (Progress (p_xp (get_user_data u g db).1 + amount)
                     (p_level (get_user_data u g db).1)).
Proof.
  intros Hx Ha.
  rewrite add_xp_manual_result, add_xp_manual_db. unfold add_xp_manual_data.
  rewrite rollover_exit by lia. simpl. split; [done | apply lookup_insert_eq].
Qed.

Lemma removexp_prefix_deletes author target g amount db :
  is_admin_member (Some author) = true →
  xp_data (removexp_prefix author target g amount db) !! (target, g) = None.
Proof.
  intros Hadmin. unfold removexp_prefix. rewrite Hadmin. simpl.
  apply lookup_delete_eq.
Qed.

(** C1. The admin removeXp command is to apply [remove_user_xp]: keep the
    row, subtract the amount from xp clamping at 0, leave the level.  The
    handler [removexp_prefix] calls [reset_user_xp] instead: for the
    global admin removing 10 XP from user 7 of guild 1, who is at xp 50 and
    level 2, the row is gone afterwards, while [remove_user_xp] on the same
    input leaves xp 40 at level 2. *)
Theorem removexp_prefix_resets_row :
  let db := {| xp_data := {[ (7, 1) := Progress 50 2 ]}; reward_roles := ∅ |} in
  xp_data (removexp_prefix global_admin 7 1 10 db) !! (7, 1) = None
  ∧ xp_data (remove_user_xp 7 1 10 db).2 !! (7, 1) = Some (Progress 40 2).
Proof. vm_compute. split; reflexivity. Qed.


End Leveling.

(** ** Cooldown keys and the gate *)

Section Cooldown.

Implicit Types (cd : gmap (Z * subject) Z) (st : bot_state).

Lemma react_key_inj g u g' v : react_key g u = react_key g' v → g = g' ∧ u = v.
Proof.
  unfold react_key. intros Heq. simplify_eq/=. split; [done|].
  by apply (inj pretty).
Qed.


Lemma cooldown_over_spec cd key now duration :
  cooldown_over cd key now duration = true
  ↔ duration ≤ now - default 0 (cd !! key).
Proof. unfold cooldown_over. apply bool_decide_eq_true. Qed.

(** Recording under one key leaves the gate of every other key alone. *)
Lemma cooldown_over_insert_ne cd key key' t now duration :
  key ≠ key' →
  cooldown_over (<[key := t]> cd) key' now duration = cooldown_over cd key' now duration.
Proof. intros Hne. unfold cooldown_over. by rewrite lookup_insert_ne. Qed.

Lemma cooldown_over_insert_eq cd key t now duration :
  cooldown_over (<[key := t]> cd) key now duration = bool_decide (duration ≤ now - t).
Proof. unfold cooldown_over. by rewrite lookup_insert_eq. Qed.

(** C7. With the message cooldown of 60 seconds and a last recorded grant
    at time 0, the gate of [on_message] is closed at 59 and open at 60:
    at 59 the handler leaves the state as it is, at 60 it grants and
    records 60. *)
Theorem message_cooldown_boundary st g u exp_gain :
  let key := message_key g u in
  let st0 := {| st_db := st_db st; cooldowns := <[key := 0]> (cooldowns st);
                last_top_user := last_top_user st |} in
  XP_COOLDOWN = 60
  ∧ cooldown_over (cooldowns st0) key 59 XP_COOLDOWN = false
  ∧ cooldown_over (cooldowns st0) key 60 XP_COOLDOWN = true
  ∧ on_message (Some g) (User u false) 59 exp_gain st0 = st0
  ∧ on_message (Some g) (User u false) 60 exp_gain st0
    = {| st_db := (add_xp u g exp_gain (st_db st)).2;
         cooldowns := <[key := 60]> (cooldowns st0);
         last_top_user := last_top_user st |}.
Proof.
  intros key st0. subst st0. simpl.
  assert (cooldown_over (<[key:=0]> (cooldowns st)) key 59 XP_COOLDOWN = false) as H59
    by (by rewrite cooldown_over_insert_eq).
  assert (cooldown_over (<[key:=0]> (cooldowns st)) key 60 XP_COOLDOWN = true) as H60
    by (by rewrite cooldown_over_insert_eq).
  repeat split; try done; unfold on_message; simpl; fold key.
  - by rewrite H59.
  - by rewrite H60.
Qed.

(** A key that was never recorded counts as recorded at 0. *)
Lemma message_cooldown_boundary_fresh cd key :
  cd !! key = None →
  cooldown_over cd key 59 XP_COOLDOWN = false
  ∧ cooldown_over cd key 60 XP_COOLDOWN = true.
Proof. intros Hnone. unfold cooldown_over. by rewrite Hnone. Qed.


(** In the handler: for a reactor and an author that are different users,
    each one's entry after the event is decided by that user's own entry
    before it. *)
Lemma on_reaction_add_gates g reactor a now exp_gain exp_gain_author st :
  u_bot reactor = false → u_bot a = false → u_id reactor ≠ u_id a →
  let st' := on_reaction_add (Some g) reactor (Some a) now exp_gain exp_gain_author st in
  let entry u :=
    if cooldown_over (cooldowns st) (react_key g u) now REACTION_COOLDOWN
    then Some now else cooldowns st !! react_key g u in
  cooldowns st' !! react_key g (u_id reactor) = entry (u_id reactor)
  ∧ cooldowns st' !! react_key g (u_id a) = entry (u_id a).
Proof.
  intros Hr Ha Hne st' entry. subst st' entry. unfold on_reaction_add.
  rewrite Hr, Ha.
  assert (react_key g (u_id reactor) ≠ react_key g (u_id a)) as Hk
    by (intros [_ ?]%react_key_inj; done).
  destruct (cooldown_over (cooldowns st) (react_key g (u_id reactor)) now
              REACTION_COOLDOWN) eqn:Hgate; simpl.
  - rewrite cooldown_over_insert_ne by done.
    destruct (cooldown_over (cooldowns st) (react_key g (u_id a)) now
                REACTION_COOLDOWN); simpl.
    + by rewrite lookup_insert_ne, !lookup_insert_eq.
    + by rewrite lookup_insert_eq, lookup_insert_ne.
  - destruct (cooldown_over (cooldowns st) (react_key g (u_id a)) now
                REACTION_COOLDOWN); simpl.
    + by rewrite lookup_insert_ne, lookup_insert_eq.
    + done.
Qed.

End Cooldown.

(** ** Ranking *)

Section Ranking.

Implicit Types (db : database) (rows : list rank_row).

#[local] Instance order_by_total : Total order_by.
Proof. intros r1 r2. unfold order_by. lia. Qed.

#[local] Instance order_by_trans : Transitive order_by.
Proof. intros r1 r2 r3. unfold order_by. lia. Qed.

(** The ranked rows are the guild's rows, in ORDER BY order. *)
Lemma ranked_rows_sorted g db :
  StronglySorted order_by (ranked_rows g db) ∧ ranked_rows g db ≡ₚ guild_rows g db.
Proof.
  split; [apply StronglySorted_merge_sort; apply _ | apply merge_sort_Permutation].
Qed.

(** The top user is the first row of the leaderboard. *)
Lemma get_top_user_id_leaderboard g db :
  get_top_user_id g db = user_id <$> head (leaderboard_prefix g db).
Proof.
  unfold get_top_user_id, leaderboard_prefix.
  by destruct (ranked_rows g db).
Qed.

Lemma get_top_user_id_None g db :
  get_top_user_id g db = None ↔ guild_rows g db = [].
Proof.
  unfold get_top_user_id. pose proof (ranked_rows_sorted g db) as [_ Hperm].
  destruct (ranked_rows g db) as [|r rs]; simpl.
  - split; [intros _ | done]. apply Permutation_nil_r. by symmetry.
  - split; [done | intros Hnil]. rewrite Hnil in Hperm.
    symmetry in Hperm. by apply Permutation_nil_cons in Hperm.
Qed.

(** The leaderboard is in ORDER BY order. *)
Lemma leaderboard_prefix_sorted g db :
  StronglySorted order_by (leaderboard_prefix g db).
Proof.
  unfold leaderboard_prefix.
  apply (StronglySorted_app_1_l _ _ (drop 10 (ranked_rows g db))).
  rewrite take_drop. apply ranked_rows_sorted.
Qed.

(** The top user owns a row of the guild that no row of the guild precedes
    strictly. *)
Lemma get_top_user_id_first g db top_id :
  get_top_user_id g db = Some top_id →
  ∃ r, r ∈ guild_rows g db ∧ user_id r = top_id
       ∧ ∀ r', r' ∈ guild_rows g db → order_by r r'.
Proof.
  unfold get_top_user_id. pose proof (ranked_rows_sorted g db) as [Hsorted Hperm].
  destruct (ranked_rows g db) as [|r rs]; simpl; [done|].
  intros [= <-]. exists r. split; [|split; [done|]].
  - rewrite <- Hperm. apply list_elem_of_here.
  - intros r' Hr'. rewrite <- Hperm in Hr'.
    apply StronglySorted_cons in Hsorted as [Hall _].
    apply elem_of_cons in Hr' as [-> | Hr'].
    + unfold order_by. lia.
    + by apply (proj1 (Forall_forall _ _) Hall).
Qed.

(** C9. When the rows of a guild are (level 3, xp 50), (level 3, xp 90)
    and (level 5, xp 0), in whatever storage order and next to whatever
    rows of other guilds, the leaderboard lists them as level 5 / xp 0,
    level 3 / xp 90, level 3 / xp 50, and the top-user query returns the
    user at level 5. *)
Theorem leaderboard_order g u1 u2 u3 db :
  guild_rows g db ≡ₚ [RankRow u1 50 3; RankRow u2 90 3; RankRow u3 0 5] →
  leaderboard_prefix g db = [RankRow u3 0 5; RankRow u2 90 3; RankRow u1 50 3]
  ∧ get_top_user_id g db = Some u3.
Proof.
  intros Hperm. rewrite get_top_user_id_leaderboard.
  unfold leaderboard_prefix, ranked_rows.
  generalize dependent (guild_rows g db). intros rows Hperm.
  symmetry in Hperm. apply permutations_Permutation in Hperm.
  cbn in Hperm.
  repeat (apply elem_of_cons in Hperm as [-> | Hperm]);
    [by vm_compute .. | by apply elem_of_nil in Hperm].
Qed.

Lemma leaderboard_order_witness :
  let db := {| xp_data := {[ (11, 1) := Progress 50 3; (12, 1) := Progress 90 3;
                             (13, 1) := Progress 0 5; (14, 2) := Progress 70 9 ]};
               reward_roles := ∅ |} in
  leaderboard_prefix 1 db = [RankRow 13 0 5; RankRow 12 90 3; RankRow 11 50 3]
  ∧ get_top_user_id 1 db = Some 13.
Proof.
  intros db. apply (leaderboard_order 1 11 12 13 db).
  refine (bool_decide_unpack _ _). vm_compute. exact I.
Defined.

End Ranking.

(** ** The top-user check *)

Section TopRank.

Implicit Types (g : guild) (db : database) (cache : gmap Z Z).

Lemma perform_g_id g c : g_id (perform g c) = g_id g.
Proof. unfold perform. destruct (g_manageable g), c; reflexivity. Qed.

Lemma foldl_perform_g_id calls g : g_id (foldl perform g calls) = g_id g.
Proof.
  revert g. induction calls as [|c calls IH]; intros g; simpl; [done|].
  by rewrite IH, perform_g_id.
Qed.

Lemma check_top_user_change_g_id g db cache :
  g_id (tc_guild (check_top_user_change g db cache)) = g_id g.
Proof.
  unfold check_top_user_change.
  repeat (case_match; simpl; try done).
  by rewrite !foldl_perform_g_id.
Qed.

(** The short cut: the detected leader is the cached one. *)
Lemma check_top_user_change_cached g db cache top_id :
  get_top_user_id (g_id g) db = Some top_id →
  cache !! g_id g = Some top_id →
  check_top_user_change g db cache = TopCheck g cache [].
Proof.
  intros Htop Hcache. unfold check_top_user_change. rewrite Htop.
  case_decide; [done|]. by rewrite decide_True.
Qed.

(** A check either changes nothing or leaves the detected leader cached. *)
Lemma check_top_user_change_cache g db cache :
  check_top_user_change g db cache = TopCheck g cache []
  ∨ ∃ top_id, get_top_user_id (g_id g) db = Some top_id
              ∧ tc_last_top_user (check_top_user_change g db cache) !! g_id g
                = Some top_id.
Proof.
  unfold check_top_user_change.
  destruct (get_top_user_id (g_id g) db) as [top_id|]; [|by left].
  case_decide; [by left|]. case_decide; [by left|].
  right. exists top_id. split; [done|].
  repeat (case_match; simpl); apply lookup_insert_eq.
Qed.

Lemma check_top_user_change_calls g db cache :
  (count_calls is_remove (tc_calls (check_top_user_change g db cache)) ≤ 1)%nat
  ∧ (count_calls is_add (tc_calls (check_top_user_change g db cache)) ≤ 1)%nat.
Proof.
  unfold check_top_user_change, remove_from_prev, assign_to_new, count_calls.
  repeat (case_match; simpl; try lia).
Qed.

(** C6. Two checks of a guild in a row, on the same database: the second
    one finds the detected leader in the cache and returns before any role
    call, leaving the guild and the cache as the first one left them; so
    the two together issue what the first one issued, which is at most one
    [remove_roles] and at most one [add_roles]. *)
Theorem check_top_user_change_twice g db cache :
  let first := check_top_user_change g db cache in
  let second := check_top_user_change (tc_guild first) db (tc_last_top_user first) in
  second = TopCheck (tc_guild first) (tc_last_top_user first) []
  ∧ tc_calls first ++ tc_calls second = tc_calls first
  ∧ (count_calls is_remove (tc_calls first ++ tc_calls second) ≤ 1)%nat
  ∧ (count_calls is_add (tc_calls first ++ tc_calls second) ≤ 1)%nat.
Proof.
  intros first second.
  assert (second = TopCheck (tc_guild first) (tc_last_top_user first) []) as Hsecond.
  { subst second. destruct (check_top_user_change_cache g db cache)
      as [Hsame | (top_id & Htop & Hcached)]; fold first in Hsame || fold first in Hcached.
    - rewrite Hsame. simpl. fold first. by rewrite Hsame.
    - apply (check_top_user_change_cached _ _ _ top_id);
        subst first; by rewrite check_top_user_change_g_id. }
  rewrite Hsecond. simpl. rewrite app_nil_r.
  split; [done|]. split; [done|]. apply check_top_user_change_calls.
Qed.

End TopRank.

(** ** Interleaved grants *)

Section Interleaving.

Implicit Types (db : database).

(** A grant that is scheduled without interruption is [add_xp]. *)
Lemma run_schedule_alone u g amount db :
  let run := run_schedule [0%nat; 0%nat; 0%nat] [new_grant u g amount] db in
  all_finished run.1 = true ∧ run.2 = (add_xp u g amount db).2.
Proof.
  intros run. subst run. rewrite add_xp_db.
  unfold get_user_data, new_grant, run_schedule, task_step. simpl.
  destruct (xp_data db !! (u, g)) as [row|] eqn:Hrow; simpl.
  - destruct (add_xp_data row amount) as [f [x l]]. simpl. split; [done|].
    unfold update_user_data, set_xp_data. f_equal.
    apply map_eq. intros k. rewrite lookup_alter, lookup_insert.
    case_decide; subst; by rewrite ?Hrow.
  - destruct (add_xp_data (Progress 0 1) amount) as [f [x l]]. simpl.
    split; [done|]. unfold update_user_data, set_xp_data. simpl. f_equal.
    by rewrite alter_insert_eq.
Qed.

(** C3. Two grants to the same key are to end as if applied one after the
    other.  [db_lock] is held per statement only: with grants of 10 and 7
    to a row at xp 20, level 1, the schedule SELECT/SELECT/UPDATE/UPDATE
    finishes both grants and leaves xp 27, the first grant lost, while
    either sequential order leaves xp 37. *)
Theorem interleaved_grants_lose_update :
  let db := {| xp_data := {[ (7, 1) := Progress 20 1 ]}; reward_roles := ∅ |} in
  let run := run_schedule [0%nat; 1%nat; 0%nat; 1%nat]
               [new_grant 7 1 10; new_grant 7 1 7] db in
  all_finished run.1 = true
  ∧ xp_data run.2 !! (7, 1) = Some (Progress 27 1)
  ∧ xp_data (run_schedule [0%nat; 0%nat; 1%nat; 1%nat]
               [new_grant 7 1 10; new_grant 7 1 7] db).2 !! (7, 1)
    = Some (Progress 37 1)
  ∧ xp_data (add_xp 7 1 7 (add_xp 7 1 10 db).2).2 !! (7, 1) = Some (Progress 37 1)
  ∧ xp_data (add_xp 7 1 10 (add_xp 7 1 7 db).2).2 !! (7, 1) = Some (Progress 37 1).
Proof. vm_compute. repeat split; reflexivity. Qed.

End Interleaving.


(** * Further properties *)

(** ** Rows: reading, resetting, and what an operation leaves alone *)

Section Rows.

Implicit Types (db : database) (p : progress).

Lemma set_xp_data_same db : set_xp_data (xp_data db) db = db.
Proof. by destruct db. Qed.

Lemma get_user_data_frame u g k db :
  k ≠ (u, g) → xp_data (get_user_data u g db).2 !! k = xp_data db !! k.
Proof.
  intros Hne. unfold get_user_data.
  destruct (xp_data db !! (u, g)); simpl; [done|].
  by rewrite lookup_insert_ne.
Qed.

(** Reading under another key, before or after a row is put, finds the same. *)
Lemma get_user_data_put_ne u g u' g' p db :
  (u', g') ≠ (u, g) →
  (get_user_data u g (set_xp_data (<[(u', g') := p]> (xp_data db)) db)).1
  = (get_user_data u g db).1.
Proof.
  intros Hne. unfold get_user_data. simpl. rewrite lookup_insert_ne by done.
  by destruct (xp_data db !! (u, g)).
Qed.

(** X1. [get_user_data] returns the row that is stored once it is done: an
    existing row is returned with the database untouched, a missing one
    is created as xp 0, level 1; reading a second time changes nothing
    more and returns the same. *)
Theorem get_user_data_creates_once u g db :
  xp_data (get_user_data u g db).2 !! (u, g) = Some (get_user_data u g db).1
  ∧ (xp_data db !! (u, g) = None → (get_user_data u g db).1 = Progress 0 1)
  ∧ (is_Some (xp_data db !! (u, g)) → (get_user_data u g db).2 = db)
  ∧ get_user_data u g (get_user_data u g db).2 = get_user_data u g db.
Proof.
  unfold get_user_data.
  destruct (xp_data db !! (u, g)) as [row|] eqn:Hrow; simpl.
  - rewrite Hrow. repeat split; done.
  - rewrite lookup_insert_eq. repeat split; (done || by intros [? [=]]).
Qed.

(** X2. The leveling operations work on one row: for every other key the
    row is after [add_xp], [add_xp_manual], [remove_user_xp],
    [reset_user_xp] and [get_user_data] what it was before, and
    [reward_roles] is not touched. *)
Theorem leveling_touches_one_row u g amount k db :
  k ≠ (u, g) →
  (xp_data (add_xp u g amount db).2 !! k = xp_data db !! k
   ∧ reward_roles (add_xp u g amount db).2 = reward_roles db)
  ∧ (xp_data (add_xp_manual u g amount db).2 !! k = xp_data db !! k
     ∧ reward_roles (add_xp_manual u g amount db).2 = reward_roles db)
  ∧ (xp_data (remove_user_xp u g amount db).2 !! k = xp_data db !! k
     ∧ reward_roles (remove_user_xp u g amount db).2 = reward_roles db)
  ∧ (xp_data (reset_user_xp u g db) !! k = xp_data db !! k
     ∧ reward_roles (reset_user_xp u g db) = reward_roles db)
  ∧ (xp_data (get_user_data u g db).2 !! k = xp_data db !! k
     ∧ reward_roles (get_user_data u g db).2 = reward_roles db).
Proof.
  intros Hne.
  rewrite add_xp_db, add_xp_manual_db, remove_user_xp_db. simpl.
  rewrite !lookup_insert_ne, lookup_delete_ne by done.
  rewrite get_user_data_frame, get_user_data_reward_roles by done.
  done.
Qed.

Lemma leveling_touches_one_row_witness :
  xp_data (add_xp_manual 7 1 350
             {| xp_data := {[ (8, 1) := Progress 20 4 ]}; reward_roles := ∅ |}).2
    !! (8, 1) = Some (Progress 20 4).
Proof.
  pose proof (leveling_touches_one_row 7 1 350 (8, 1)
                {| xp_data := {[ (8, 1) := Progress 20 4 ]}; reward_roles := ∅ |})
    as (_ & [Hrow _] & _); [by intros [=] |].
  rewrite Hrow. reflexivity.
Defined.

(** X3. After [reset_user_xp] the next read starts over at xp 0, level 1;
    resetting twice is resetting once, and resetting a row that is not
    there leaves the database as it is. *)
Theorem reset_user_xp_starts_over u g db :
  (get_user_data u g (reset_user_xp u g db)).1 = Progress 0 1
  ∧ reset_user_xp u g (reset_user_xp u g db) = reset_user_xp u g db
  ∧ (xp_data db !! (u, g) = None → reset_user_xp u g db = db).
Proof.
  unfold reset_user_xp, get_user_data. simpl. rewrite lookup_delete_eq.
  repeat split.
  - unfold set_xp_data. simpl. f_equal.
    apply delete_id, lookup_delete_eq.
  - intros Hnone. rewrite delete_id by done. apply set_xp_data_same.
Qed.

(** X11. Grants to different rows do not depend on their order: on either
    path, granting to one key and then to another leaves the database that
    the opposite order leaves. *)
Theorem grants_to_different_rows_commute u1 g1 a u2 g2 b db :
  (u1, g1) ≠ (u2, g2) →
  (add_xp u1 g1 a (add_xp u2 g2 b db).2).2 = (add_xp u2 g2 b (add_xp u1 g1 a db).2).2
  ∧ (add_xp_manual u1 g1 a (add_xp_manual u2 g2 b db).2).2
    = (add_xp_manual u2 g2 b (add_xp_manual u1 g1 a db).2).2.
Proof.
  intros Hne. split.
  - rewrite (add_xp_db u1 g1 a), (add_xp_db u2 g2 b (add_xp u1 g1 a db).2).
    rewrite (add_xp_db u2 g2 b db), (add_xp_db u1 g1 a db).
    rewrite !get_user_data_put_ne by done.
    unfold set_xp_data. simpl. f_equal. by apply insert_insert_ne.
  - rewrite (add_xp_manual_db u1 g1 a),
      (add_xp_manual_db u2 g2 b (add_xp_manual u1 g1 a db).2).
    rewrite (add_xp_manual_db u2 g2 b db), (add_xp_manual_db u1 g1 a db).
    rewrite !get_user_data_put_ne by done.
    unfold set_xp_data. simpl. f_equal. by apply insert_insert_ne.
Qed.

Lemma grants_to_different_rows_commute_witness :
  (add_xp 7 1 10 (add_xp 8 1 12 empty_db).2).2
  = (add_xp 8 1 12 (add_xp 7 1 10 empty_db).2).2.
Proof.
  apply (grants_to_different_rows_commute 7 1 10 8 1 12 empty_db).
  by intros [=].
Defined.

End Rows.

(** ** What a grant does to xp and level *)

Section Grants.

Implicit Types (db : database) (p : progress).

Lemma rollover_thresholds xp level leveled_up :
  p_xp (rollover xp level leveled_up).2
  + thresholds_from level (Z.to_nat (p_level (rollover xp level leveled_up).2 - level))
  = xp.
Proof.
  apply (rollover_loop_ind (λ xp level _ r,
    p_xp r.2 + thresholds_from level (Z.to_nat (p_level r.2 - level)) = xp)).
  - intros x l f _. simpl. rewrite Z.sub_diag. simpl. lia.
  - intros x l f Hge IH.
    pose proof (rollover_level_le (x - xp_for_next_level l) (l + 1) true) as Hle.
    replace (Z.to_nat (p_level (rollover (x - xp_for_next_level l) (l + 1) true).2 - l))
      with (S (Z.to_nat (p_level (rollover (x - xp_for_next_level l) (l + 1) true).2
                         - (l + 1)))) by lia.
    simpl. lia.
Qed.

Lemma rollover_nonneg xp level leveled_up :
  0 ≤ xp → 0 ≤ p_xp (rollover xp level leveled_up).2.
Proof.
  apply (rollover_loop_ind (λ xp _ _ r, 0 ≤ xp → 0 ≤ p_xp r.2)); simpl.
  - auto.
  - intros x l _ Hge IH Hx. apply IH. lia.
Qed.


(** X4. A grant moves XP, it neither makes nor loses any: on both paths the
    xp written back plus the thresholds of the levels climbed is the xp
    read plus the amount.  This holds for every row and every amount. *)
Theorem grant_conserves_xp p amount :
  (let q := (add_xp_data p amount).2 in
   p_xp q + thresholds_from (p_level p) (Z.to_nat (p_level q - p_level p))
   = p_xp p + amount)
  ∧ (let q := (add_xp_manual_data p amount).2 in
     p_xp q + thresholds_from (p_level p) (Z.to_nat (p_level q - p_level p))
     = p_xp p + amount).
Proof.
  split; simpl.
  - unfold add_xp_data. case_decide; simpl.
    + replace (Z.to_nat (p_level p + 1 - p_level p)) with 1%nat by lia. simpl. lia.
    + rewrite Z.sub_diag. simpl. lia.
  - apply rollover_thresholds.
Qed.



(** X7. A grant that does not take the balance below zero does not write
    a negative xp: on both paths, if the xp read plus the amount is at
    least 0, so is the xp written back. *)
Theorem grant_keeps_xp_nonnegative u g amount db :
  0 ≤ p_xp (get_user_data u g db).1 + amount →
  (∃ q, xp_data (add_xp u g amount db).2 !! (u, g) = Some q ∧ 0 ≤ p_xp q)
  ∧ (∃ q, xp_data (add_xp_manual u g amount db).2 !! (u, g) = Some q ∧ 0 ≤ p_xp q).
Proof.
  intros Hx. rewrite add_xp_db, add_xp_manual_db. split; eexists.
  - split; [apply lookup_insert_eq|].
    unfold add_xp_data. case_decide; simpl; lia.
  - split; [apply lookup_insert_eq|]. by apply rollover_nonneg.
Qed.

Lemma grant_keeps_xp_nonnegative_witness :
  ∃ q, xp_data (add_xp_manual 7 1 350 empty_db).2 !! (7, 1) = Some q ∧ 0 ≤ p_xp q.
Proof.
  apply (grant_keeps_xp_nonnegative 7 1 350 empty_db). vm_compute. discriminate.
Defined.

(** X8. On the admin path more XP never gives a lower level: for the same
    row, a larger amount ends at a level at least as high. *)
Theorem add_xp_manual_level_monotone p a b :
  a ≤ b →
  p_level (add_xp_manual_data p a).2 ≤ p_level (add_xp_manual_data p b).2.
Proof.
  intros Hab. unfold add_xp_manual_data.
  replace (p_xp p + b) with (p_xp p + a + (b - a)) by lia.
  rewrite <- (rollover_split (p_xp p + a) (p_level p) (b - a) false false false) by lia.
  apply rollover_level_le.
Qed.

Lemma add_xp_manual_level_monotone_witness :
  p_level (add_xp_manual_data (Progress 0 1) 120).2
  ≤ p_level (add_xp_manual_data (Progress 0 1) 350).2.
Proof. apply add_xp_manual_level_monotone. lia. Defined.

End Grants.

(** ** Handlers and runs *)

Section Handlers.

Implicit Types (db : database) (p : progress) (st : bot_state).

Lemma set_st_db_same st : set_st_db (st_db st) st = st.
Proof. by destruct st. Qed.

(** X12. The admin commands do nothing for a member who is neither listed
    in [ADMINS] nor an administrator of the guild: [!addxp], [!removexp]
    and [!setrewardrole] leave the whole state as it is, and
    [!setlevelchannel] leaves the settings as they are. *)
Theorem admin_commands_need_admin st author target gid amount role channel settings :
  is_admin_member (Some author) = false →
  handle st (ev_addxp author target gid amount) = st
  ∧ handle st (ev_removexp author target gid amount) = st
  ∧ handle st (ev_setrewardrole author gid role) = st
  ∧ setrewardrole_prefix author gid role (st_db st) = st_db st
  ∧ setlevelchannel_prefix author gid channel settings = settings.
Proof.
  intros Hadmin.
  unfold handle, addxp_prefix, removexp_prefix, setrewardrole_prefix,
    setlevelchannel_prefix.
  rewrite Hadmin. by rewrite set_st_db_same.
Qed.

Lemma admin_commands_need_admin_witness :
  handle initial_state (ev_addxp (Member 5 false) 7 1 1000) = initial_state.
Proof.
  apply (admin_commands_need_admin initial_state (Member 5 false) 7 1 1000 0 0 ∅).
  reflexivity.
Defined.

End Handlers.

(** ** Gates, announcements and the cache along runs *)

Section Events.

Implicit Types (db : database) (p : progress) (st : bot_state).

Lemma check_top_user_change_nonzero g db cache :
  (∀ gid t, cache !! gid = Some t → t ≠ 0) →
  ∀ gid t, tc_last_top_user (check_top_user_change g db cache) !! gid = Some t → t ≠ 0.
Proof.
  intros Hcache gid t. unfold check_top_user_change.
  destruct (get_top_user_id (g_id g) db) as [top_id|]; [|apply Hcache].
  case_decide as Hzero; [apply Hcache|]. case_decide; [apply Hcache|].
  assert (<[g_id g := top_id]> cache !! gid = Some t → t ≠ 0) as Hput.
  { rewrite lookup_insert. case_decide; [by intros [= <-] | apply Hcache]. }
  repeat (case_match; simpl); exact Hput.
Qed.

(** X14. In every state of a run, every stored row has a level of at least 1
    and an xp below the threshold of its level, and [last_top_user] never
    holds the id 0. *)
Theorem reachable_state_invariant st :
  reachable st →
  (∀ k p, xp_data (st_db st) !! k = Some p →
          1 ≤ p_level p ∧ p_xp p < xp_for_next_level (p_level p))
  ∧ (∀ gid t, last_top_user st !! gid = Some t → t ≠ 0).
Proof.
  intros Hst. split; [apply (reachable_rows_within st Hst)|].
  induction Hst as [|st e Hst IH He]; [intros gid t; simpl; by rewrite lookup_empty|].
  destruct e as [gd author now gain | gd reactor author now gain gain_a
                | author target gid amount | author target gid amount
                | target gid | author gid role | g]; simpl; try done.
  - unfold on_message. by repeat (case_match; simpl).
  - unfold on_reaction_add. by repeat (case_match; simpl).
  - by case_match.
  - by apply check_top_user_change_nonzero.
Qed.

Lemma reachable_state_invariant_witness :
  1 ≤ p_level (Progress 50 3) ∧ p_xp (Progress 50 3) < xp_for_next_level (p_level (Progress 50 3)).
Proof.
  destruct (reachable_state_invariant (handle initial_state (ev_addxp global_admin 7 1 350)))
    as [Hrows _].
  - apply reachable_handle; [apply reachable_initial | exact I].
  - apply (Hrows (7, 1)). reflexivity.
Defined.

(** X16. A user who reacts to a message of their own is granted at most
    once by that reaction: after the reactor's part the author's part finds
    the gate closed, so the event ends as if the message had no author to
    grant. *)
Theorem on_reaction_add_own_message g reactor now gain gain_a st :
  on_reaction_add (Some g) reactor (Some reactor) now gain gain_a st
  = on_reaction_add (Some g) reactor None now gain gain_a st.
Proof.
  unfold on_reaction_add. destruct (u_bot reactor); [done|].
  destruct (cooldown_over (cooldowns st) (react_key g (u_id reactor)) now
              REACTION_COOLDOWN) eqn:Hgate; simpl.
  - rewrite cooldown_over_insert_eq, bool_decide_eq_false_2; [done|].
    unfold REACTION_COOLDOWN. lia.
  - by rewrite Hgate.
Qed.



(** X27. [on_guild_join] picks the system channel for its greeting when
    the guild has one; otherwise the first text channel, in the guild's
    order, that the bot may send to; and it picks none, and returns, exactly
    when there is no system channel and no text channel it may send to. *)
Theorem on_guild_join_channel system_channel text_channels :
  (∀ c, system_channel = Some c → on_guild_join system_channel text_channels = Some c)
  ∧ (∀ c, system_channel = None →
          on_guild_join system_channel text_channels = Some c →
          ∃ before after, text_channels = before ++ (c, true) :: after
                          ∧ ∀ ch, ch ∈ before → ch.2 = false)
  ∧ (on_guild_join system_channel text_channels = None
     ↔ system_channel = None ∧ ∀ ch, ch ∈ text_channels → ch.2 = false).
Proof.
  unfold on_guild_join. split; [by intros c ->|].
  destruct system_channel as [s|]; [split; [done | split; [done | by intros [? _]]]|].
  split.
  - intros c _. induction text_channels as [|[c' ok] rest IH]; simpl; [done|].
    destruct ok.
    + intros [= ->]. exists [], rest. split; [done|]. by intros ch ?%elem_of_nil.
    + intros Hrest. destruct (IH Hrest) as (before & after & -> & Hbefore).
      exists ((c', false) :: before), after. split; [done|].
      intros ch [-> | Hin]%elem_of_cons; [done | by apply Hbefore].
  - induction text_channels as [|[c' ok] rest IH]; simpl.
    + split; [intros _; split; [done|]; by intros ch ?%elem_of_nil | done].
    + destruct ok.
      * split; [done|]. intros [_ Hall]. specialize (Hall (c', true)). simpl in Hall.
        discriminate Hall. apply list_elem_of_here.
      * rewrite IH. split; intros [_ Hall]; (split; [done|]).
        -- intros ch [-> | Hin]%elem_of_cons; [done | by apply Hall].
        -- intros ch Hin. apply Hall. by apply list_elem_of_further.
Qed.

End Events.

(** ** What the ranking queries return, in terms of the table *)

Section Queries.

Implicit Types (db : database) (r : rank_row).

(** The rows of a guild are exactly the rows stored under it. *)
Lemma guild_rows_elem g r db :
  r ∈ guild_rows g db
  ↔ xp_data db !! (user_id r, g) = Some (Progress (xp r) (level r)).
Proof.
  unfold guild_rows. rewrite list_elem_of_fmap. split.
  - intros ([[u g'] [x l]] & -> & [Hg Hin]%list_elem_of_filter). simpl in *. subst g'.
    by apply elem_of_map_to_list in Hin.
  - intros Hrow. exists ((user_id r, g), Progress (xp r) (level r)).
    split; [by destruct r|]. apply list_elem_of_filter. split; [done|].
    by apply elem_of_map_to_list.
Qed.

Lemma guild_rows_user_ids_NoDup g db : NoDup (user_id <$> guild_rows g db).
Proof.
  apply NoDup_fmap_2_strong.
  - intros [u1 x1 l1] [u2 x2 l2] H1%guild_rows_elem H2%guild_rows_elem.
    simpl in *. intros ->. congruence.
  - unfold guild_rows. apply NoDup_fmap_2_strong.
    + intros [[u1 g1] [x1 l1]] [[u2 g2] [x2 l2]]
        [Hg1 _]%list_elem_of_filter [Hg2 _]%list_elem_of_filter.
      simpl in *. congruence.
    + apply NoDup_filter, NoDup_map_to_list.
Qed.

Lemma ranked_rows_elem g r db : r ∈ ranked_rows g db ↔ r ∈ guild_rows g db.
Proof. unfold ranked_rows. by rewrite merge_sort_Permutation. Qed.

(** X18. The leaderboard of a guild holds at most 10 rows, as many as the
    guild has when those are fewer; each of them is a row stored for that
    guild, with the xp and level stored; and no user is listed twice. *)
Theorem leaderboard_prefix_rows g db :
  length (leaderboard_prefix g db) = (10 `min` length (guild_rows g db))%nat
  ∧ (∀ r, r ∈ leaderboard_prefix g db →
          xp_data db !! (user_id r, g) = Some (Progress (xp r) (level r)))
  ∧ NoDup (user_id <$> leaderboard_prefix g db).
Proof.
  unfold leaderboard_prefix. repeat split.
  - rewrite length_take. unfold ranked_rows.
    by rewrite merge_sort_Permutation.
  - intros r Hr. apply guild_rows_elem, ranked_rows_elem.
    by apply (subseteq_take 10).
  - rewrite fmap_take. eapply sublist_NoDup; [|apply sublist_take].
    unfold ranked_rows. rewrite merge_sort_Permutation.
    apply guild_rows_user_ids_NoDup.
Qed.

(** X19. [get_top_user_id] returns [None] exactly when the guild has no row
    at all; rows of other guilds do not count. *)
Theorem get_top_user_id_none_iff g db :
  get_top_user_id g db = None ↔ ∀ u, xp_data db !! (u, g) = None.
Proof.
  rewrite get_top_user_id_None. split.
  - intros Hnil u. destruct (xp_data db !! (u, g)) as [[x l]|] eqn:Hrow; [|done].
    assert (RankRow u x l ∈ guild_rows g db) as Hin by by apply guild_rows_elem.
    rewrite Hnil in Hin. by apply elem_of_nil in Hin.
  - intros Hnone. destruct (guild_rows g db) as [|r rows] eqn:Hrows; [done|].
    assert (r ∈ guild_rows g db) as Hin by (rewrite Hrows; apply list_elem_of_here).
    apply guild_rows_elem in Hin. by rewrite Hnone in Hin.
Qed.

(** X20. The user [get_top_user_id] returns has a row in the guild, and no
    row of the guild beats it: every other row has a lower level, or the
    same level and an xp that is not higher. *)
Theorem get_top_user_id_is_top g db top_id :
  get_top_user_id g db = Some top_id →
  ∃ p, xp_data db !! (top_id, g) = Some p
       ∧ ∀ u q, xp_data db !! (u, g) = Some q →
                p_level q < p_level p ∨ (p_level q = p_level p ∧ p_xp q ≤ p_xp p).
Proof.
  intros Htop. destruct (get_top_user_id_first g db top_id Htop) as (r & Hr & <- & Hfirst).
  apply guild_rows_elem in Hr. eexists. split; [exact Hr|].
  intros u [x l] Hq.
  assert (RankRow u x l ∈ guild_rows g db) as Hin by by apply guild_rows_elem.
  apply Hfirst in Hin. exact Hin.
Qed.

Lemma get_top_user_id_is_top_witness :
  ∃ p, xp_data {| xp_data := {[ (11, 1) := Progress 50 3; (13, 1) := Progress 0 5;
                                (14, 2) := Progress 70 9 ]};
                  reward_roles := ∅ |} !! (13, 1) = Some p
       ∧ ∀ u q, xp_data {| xp_data := {[ (11, 1) := Progress 50 3;
                                         (13, 1) := Progress 0 5;
                                         (14, 2) := Progress 70 9 ]};
                           reward_roles := ∅ |} !! (u, 1) = Some q →
                p_level q < p_level p ∨ (p_level q = p_level p ∧ p_xp q ≤ p_xp p).
Proof. apply get_top_user_id_is_top. reflexivity. Defined.

End Queries.

(** ** The top-user check: what it writes and whom it calls *)

Section Tracker.

Implicit Types (g : guild) (db : database) (cache : gmap Z Z).

Lemma perform_roles_members g c :
  g_roles (perform g c) = g_roles g
  ∧ dom (g_members (perform g c)) = dom (g_members g).
Proof.
  unfold perform. destruct (g_manageable g), c; simpl; split; try done;
    apply leibniz_equiv, dom_alter.
Qed.

Lemma foldl_perform_roles_members calls g :
  g_roles (foldl perform g calls) = g_roles g
  ∧ dom (g_members (foldl perform g calls)) = dom (g_members g).
Proof.
  revert g. induction calls as [|c calls IH]; intros g; simpl; [done|].
  destruct (IH (perform g c)) as [-> ->]. apply perform_roles_members.
Qed.

(** X21. A check writes at most the cache entry of its own guild: the
    entries of all other guilds stay; the own entry becomes the detected
    leader whenever there is one with a non-zero id; without one nothing
    happens at all.  The guild keeps its roles and its members. *)
Theorem check_top_user_change_writes_own_entry g db cache :
  (∀ gid, gid ≠ g_id g →
          tc_last_top_user (check_top_user_change g db cache) !! gid = cache !! gid)
  ∧ (∀ top_id, get_top_user_id (g_id g) db = Some top_id → top_id ≠ 0 →
               tc_last_top_user (check_top_user_change g db cache) !! g_id g
               = Some top_id)
  ∧ (get_top_user_id (g_id g) db = None ∨ get_top_user_id (g_id g) db = Some 0 →
     check_top_user_change g db cache = TopCheck g cache [])
  ∧ g_roles (tc_guild (check_top_user_change g db cache)) = g_roles g
  ∧ dom (g_members (tc_guild (check_top_user_change g db cache))) = dom (g_members g).
Proof.
  unfold check_top_user_change.
  destruct (get_top_user_id (g_id g) db) as [top_id|]; [|by repeat split; intros].
  case_decide as Hzero.
  { subst top_id. repeat split; (done || by intros t [= <-] ?). }
  case_decide as Hcached.
  { repeat split; (done || (by intros t [= <-] _) || (by intros [|[=]])). }
  split; [|split; [|split]].
  - intros gid Hne. repeat (case_match; simpl); by rewrite lookup_insert_ne.
  - intros t [= <-] _. repeat (case_match; simpl); apply lookup_insert_eq.
  - by intros [|[=]].
  - repeat (case_match; simpl; try done).
    destruct (foldl_perform_roles_members
                (assign_to_new (foldl perform g (remove_from_prev g (cache !! g_id g) z))
                   top_id z)
                (foldl perform g (remove_from_prev g (cache !! g_id g) z))) as [-> ->].
    apply foldl_perform_roles_members.
Qed.

(** After a check the cache is current for the guild checked, and a check
    on a current cache returns at once. *)
Lemma check_top_user_change_current g db cache :
  cache_current db (tc_last_top_user (check_top_user_change g db cache)) (g_id g).
Proof.
  intros top_id Htop Hzero. unfold check_top_user_change. rewrite Htop.
  rewrite decide_False by done. case_decide; [done|].
  repeat (case_match; simpl); apply lookup_insert_eq.
Qed.

Lemma check_top_user_change_noop g db cache :
  cache_current db cache (g_id g) →
  check_top_user_change g db cache = TopCheck g cache [].
Proof.
  intros Hcurrent. unfold check_top_user_change.
  destruct (get_top_user_id (g_id g) db) as [top_id|] eqn:Htop; [|done].
  case_decide; [done|]. rewrite decide_True; [done | by apply Hcurrent].
Qed.

Lemma check_top_user_change_keeps_current g db cache gid :
  cache_current db cache gid →
  cache_current db (tc_last_top_user (check_top_user_change g db cache)) gid.
Proof.
  intros Hcurrent. destruct (decide (gid = g_id g)) as [->|Hne].
  - apply check_top_user_change_current.
  - intros top_id Htop Hzero. rewrite <- (Hcurrent top_id Htop Hzero).
    unfold check_top_user_change.
    repeat (case_match; simpl; try done); by rewrite lookup_insert_ne.
Qed.

(** X22. A reward role that is set (or changed) after a check has cached the
    leader is not handed out by the next check: as long as the leader is the
    same, the check returns before any role call. *)
Theorem reward_role_set_after_check g db cache role :
  check_top_user_change
    (tc_guild (check_top_user_change g db cache))
    (set_reward_role_id (g_id g) role db)
    (tc_last_top_user (check_top_user_change g db cache))
  = TopCheck (tc_guild (check_top_user_change g db cache))
             (tc_last_top_user (check_top_user_change g db cache)) [].
Proof.
  apply check_top_user_change_noop. rewrite check_top_user_change_g_id.
  exact (check_top_user_change_current g db cache).
Qed.

End Tracker.

Section RoleCalls.

Implicit Types (g : guild) (db : database) (cache : gmap Z Z).

Lemma foldl_perform_member calls g m :
  is_Some (g_members (foldl perform g calls) !! m) ↔ is_Some (g_members g !! m).
Proof.
  destruct (foldl_perform_roles_members calls g) as [_ Hdom].
  by rewrite <- !elem_of_dom, Hdom.
Qed.

(** X24. The only role calls a check issues are a [remove_roles] on the
    cached previous leader, who is a member holding the role, and an
    [add_roles] on the detected leader, who is a member; both with the
    reward role configured for the guild, which exists in the guild. *)
Theorem check_top_user_change_calls_shape g db cache c :
  c ∈ tc_calls (check_top_user_change g db cache) →
  ∃ role, get_reward_role_id (g_id g) db = Some role ∧ role ∈ g_roles g
          ∧ ((∃ prev roles, c = remove_roles prev role
                            ∧ cache !! g_id g = Some prev
                            ∧ g_members g !! prev = Some roles ∧ role ∈ roles)
             ∨ (∃ top_id, c = add_roles top_id role
                          ∧ get_top_user_id (g_id g) db = Some top_id
                          ∧ is_Some (g_members g !! top_id))).
Proof.
  unfold check_top_user_change.
  destruct (get_top_user_id (g_id g) db) as [top_id|]; [|by intros ?%elem_of_nil].
  case_decide; [by intros ?%elem_of_nil|]. case_decide; [by intros ?%elem_of_nil|].
  destruct (get_reward_role_id (g_id g) db) as [role|]; [|by intros ?%elem_of_nil].
  case_decide; [by intros ?%elem_of_nil|].
  case_decide as Hrole; [|by intros ?%elem_of_nil]. simpl.
  intros [Hin | Hin]%elem_of_app; exists role; (split; [done|]); (split; [done|]).
  - left. unfold remove_from_prev in Hin.
    destruct (cache !! g_id g) as [prev|]; [|by apply elem_of_nil in Hin].
    case_decide; [by apply elem_of_nil in Hin|].
    destruct (g_members g !! prev) as [roles|] eqn:Hprev; [|by apply elem_of_nil in Hin].
    case_decide; [|by apply elem_of_nil in Hin].
    apply list_elem_of_singleton in Hin. by exists prev, roles.
  - right. unfold assign_to_new in Hin.
    destruct (g_members _ !! top_id) as [roles|] eqn:Hnew; [|by apply elem_of_nil in Hin].
    apply list_elem_of_singleton in Hin. exists top_id. repeat split; [done..|].
    eapply foldl_perform_member. by rewrite Hnew.
Qed.

Lemma check_top_user_change_calls_shape_witness :
  ∃ role, get_reward_role_id 1 {| xp_data := {[ (13, 1) := Progress 0 5 ]};
                                  reward_roles := {[ 1 := 900 ]} |} = Some role
          ∧ role ∈ ({[ 900 ]} : gset Z).
Proof.
  destruct (check_top_user_change_calls_shape
              {| g_id := 1; g_roles := {[ 900 ]}; g_members := {[ 13 := ∅ ]};
                 g_manageable := true |}
              {| xp_data := {[ (13, 1) := Progress 0 5 ]};
                 reward_roles := {[ 1 := 900 ]} |}
              ∅ (add_roles 13 900)) as (role & Hrole & Hin & _).
  - vm_compute. apply list_elem_of_here.
  - exists role. split; [exact Hrole | exact Hin].
Defined.

(** X23. When the leader of a guild has changed, the reward role exists in
    the guild and the bot may manage roles, the check moves the role: the
    new leader, being a member, holds the role afterwards, and a previous
    leader who is a member does not hold it any more. *)
Theorem check_top_user_change_moves_role g db cache top_id role roles :
  get_top_user_id (g_id g) db = Some top_id → top_id ≠ 0 →
  cache !! g_id g ≠ Some top_id →
  get_reward_role_id (g_id g) db = Some role → role ≠ 0 → role ∈ g_roles g →
  g_manageable g = true →
  g_members g !! top_id = Some roles →
  g_members (tc_guild (check_top_user_change g db cache)) !! top_id
  = Some (roles ∪ {[ role ]})
  ∧ (∀ prev prev_roles,
       cache !! g_id g = Some prev → prev ≠ 0 →
       g_members g !! prev = Some prev_roles →
       g_members (tc_guild (check_top_user_change g db cache)) !! prev
       = Some (prev_roles ∖ {[ role ]})).
Proof.
  intros Htop Hzero Hcached Hrole Hrole0 Hexists Hmanage Hnew.
  unfold check_top_user_change. rewrite Htop, Hrole.
  rewrite !decide_False, decide_True by done. simpl.
  unfold remove_from_prev.
  destruct (cache !! g_id g) as [prev|] eqn:Hprev.
  - assert (prev ≠ top_id) as Hne by congruence.
    destruct (decide (prev = 0)) as [->|Hprev0].
    + simpl. unfold assign_to_new. rewrite Hnew. simpl. unfold perform.
      rewrite Hmanage. simpl. rewrite lookup_alter_eq, Hnew. simpl.
      split; [done|]. intros prev prev_roles [= <-]. done.
    + destruct (g_members g !! prev) as [prev_roles|] eqn:Hmember.
      * destruct (decide (role ∈ prev_roles)) as [Hholds|Hholds]; simpl.
        -- unfold assign_to_new, perform. rewrite Hmanage. simpl.
           rewrite lookup_alter_ne, Hnew by done. simpl. rewrite Hmanage. simpl.
           rewrite lookup_alter_eq, lookup_alter_ne, Hnew by done. simpl.
           split; [done|]. intros p rs [= <-] _ Hrs.
           assert (rs = prev_roles) as -> by congruence.
           rewrite lookup_alter_ne, lookup_alter_eq, Hmember by done. done.
        -- unfold assign_to_new. rewrite Hnew. simpl. unfold perform.
           rewrite Hmanage. simpl. rewrite lookup_alter_eq, Hnew. simpl.
           split; [done|]. intros p rs [= <-] _ Hrs.
           assert (rs = prev_roles) as -> by congruence.
           rewrite lookup_alter_ne, Hmember by done. f_equal.
           symmetry. by apply difference_disjoint_L, disjoint_singleton_r.
      * simpl. unfold assign_to_new. rewrite Hnew. simpl. unfold perform.
        rewrite Hmanage. simpl. rewrite lookup_alter_eq, Hnew. simpl.
        split; [done|]. intros p rs [= <-] _. congruence.
  - simpl. unfold assign_to_new. rewrite Hnew. simpl. unfold perform.
    rewrite Hmanage. simpl. rewrite lookup_alter_eq, Hnew. simpl.
    split; [done|]. done.
Qed.

Lemma check_top_user_change_moves_role_witness :
  g_members (tc_guild (check_top_user_change
     {| g_id := 1; g_roles := {[ 900 ]};
        g_members := {[ 13 := ∅; 11 := {[ 900 ]} ]}; g_manageable := true |}
     {| xp_data := {[ (11, 1) := Progress 50 3; (13, 1) := Progress 0 5 ]};
        reward_roles := {[ 1 := 900 ]} |}
     {[ 1 := 11 ]})) !! 13
  = Some (∅ ∪ {[ 900 ]}).
Proof.
  apply (check_top_user_change_moves_role
           {| g_id := 1; g_roles := {[ 900 ]};
              g_members := {[ 13 := ∅; 11 := {[ 900 ]} ]}; g_manageable := true |}
           {| xp_data := {[ (11, 1) := Progress 50 3; (13, 1) := Progress 0 5 ]};
              reward_roles := {[ 1 := 900 ]} |}
           {[ 1 := 11 ]} 13 900 ∅);
    try reflexivity; try (by intros [=]); try lia.
Defined.

End RoleCalls.

(** ** The periodic sweep *)

Section Sweep.

Implicit Types (g : guild) (db : database) (cache : gmap Z Z) (acc : sweep).

Lemma sweep_current guilds db acc gid :
  cache_current db (sw_last_top_user acc) gid ∨ gid ∈ g_id <$> guilds →
  cache_current db (sw_last_top_user (foldl (sweep_guild db) acc guilds)) gid.
Proof.
  revert acc. induction guilds as [|g guilds IH]; intros acc; simpl.
  - intros [Hcurrent | Hin]; [done | by apply elem_of_nil in Hin].
  - intros [Hcurrent | [-> | Hin]%elem_of_cons]; apply IH; simpl; auto.
    + left. by apply check_top_user_change_keeps_current.
    + left. apply check_top_user_change_current.
Qed.

Lemma sweep_ids guilds db acc :
  g_id <$> sw_guilds (foldl (sweep_guild db) acc guilds)
  = (g_id <$> sw_guilds acc) ++ (g_id <$> guilds).
Proof.
  revert acc. induction guilds as [|g guilds IH]; intros acc; simpl.
  - by rewrite app_nil_r.
  - rewrite IH. simpl. rewrite fmap_app. simpl.
    by rewrite check_top_user_change_g_id, <- app_assoc.
Qed.

Lemma sweep_noop guilds db acc :
  (∀ g, g ∈ guilds → cache_current db (sw_last_top_user acc) (g_id g)) →
  foldl (sweep_guild db) acc guilds
  = Sweep (sw_guilds acc ++ guilds) (sw_last_top_user acc) (sw_calls acc).
Proof.
  revert acc. induction guilds as [|g guilds IH]; intros acc Hcurrent; simpl.
  - rewrite app_nil_r. by destruct acc.
  - unfold sweep_guild at 2.
    rewrite check_top_user_change_noop by (apply Hcurrent, list_elem_of_here).
    simpl. rewrite IH; simpl.
    + by rewrite app_nil_r, <- app_assoc.
    + intros g' Hin. by apply Hcurrent, list_elem_of_further.
Qed.

(** X25. After [periodic_top_check] has gone through the guilds, the cache
    is current for each of them, and a second sweep on the same database
    issues no role call and changes neither the cache nor a guild. *)
Theorem periodic_top_check_twice guilds db cache :
  (∀ g, g ∈ guilds →
        cache_current db (sw_last_top_user (periodic_top_check guilds db cache)) (g_id g))
  ∧ periodic_top_check (sw_guilds (periodic_top_check guilds db cache)) db
      (sw_last_top_user (periodic_top_check guilds db cache))
    = Sweep (sw_guilds (periodic_top_check guilds db cache))
            (sw_last_top_user (periodic_top_check guilds db cache)) [].
Proof.
  assert (∀ gid, gid ∈ g_id <$> guilds →
                 cache_current db (sw_last_top_user (periodic_top_check guilds db cache)) gid)
    as Hcurrent by (intros gid Hin; apply sweep_current; by right).
  split.
  - intros g Hin. by apply Hcurrent, list_elem_of_fmap_2.
  - unfold periodic_top_check at 1. rewrite sweep_noop; [done|]. simpl.
    intros g Hin. apply Hcurrent.
    apply (list_elem_of_fmap_2 g_id) in Hin.
    unfold periodic_top_check in Hin. by rewrite sweep_ids in Hin.
Qed.

End Sweep.

(** ** Grants in flight on different rows *)

Section Flight.

Implicit Types (db : database) (t : grant_task) (rows : gmap (Z * Z) progress).

Lemma task_step_fields t db :
  task_key (task_step t db).1 = task_key t
  ∧ t_amount (task_step t db).1 = t_amount t.
Proof.
  unfold task_step. destruct (t_pc t); [|done..].
  by destruct (xp_data db !! (t_user t, t_guild t)).
Qed.

Lemma task_step_frame t db k :
  k ≠ task_key t → xp_data (task_step t db).2 !! k = xp_data db !! k.
Proof.
  intros Hne. unfold task_step, task_key in *. destruct (t_pc t); simpl.
  - by destruct (xp_data db !! (t_user t, t_guild t)).
  - by rewrite lookup_insert_ne.
  - by rewrite lookup_alter_ne.
  - done.
Qed.

Lemma task_step_inv rows t db :
  task_inv rows db t → task_inv rows (task_step t db).2 (task_step t db).1.
Proof.
  unfold task_inv, task_step, granted, task_key.
  destruct (t_pc t) as [| |data|] eqn:Hpc; simpl.
  - intros Hrow. destruct (xp_data db !! (t_user t, t_guild t)) as [row|] eqn:Hdb; simpl.
    + by rewrite <- Hrow.
    + by rewrite <- Hrow.
  - intros [Hrows Hdb]. rewrite Hrows, lookup_insert_eq. done.
  - intros [-> Hdb]. rewrite lookup_alter_eq, Hdb. simpl.
    by destruct (add_xp_data _ _).2.
  - by rewrite Hpc.
Qed.

Lemma task_inv_frame rows t db db' :
  xp_data db' !! task_key t = xp_data db !! task_key t →
  task_inv rows db t → task_inv rows db' t.
Proof. unfold task_inv. intros ->. done. Qed.

Lemma run_schedule_inv rows schedule tasks db :
  NoDup (task_key <$> tasks) →
  (∀ i t, tasks !! i = Some t → task_inv rows db t) →
  (∀ k, k ∉ task_key <$> tasks → xp_data db !! k = rows !! k) →
  (∀ i t, (run_schedule schedule tasks db).1 !! i = Some t →
          task_inv rows (run_schedule schedule tasks db).2 t)
  ∧ (∀ k, k ∉ task_key <$> tasks →
          xp_data (run_schedule schedule tasks db).2 !! k = rows !! k)
  ∧ (λ t, (task_key t, t_amount t)) <$> (run_schedule schedule tasks db).1
    = (λ t, (task_key t, t_amount t)) <$> tasks.
Proof.
  revert tasks db. induction schedule as [|i schedule IH]; intros tasks db Hdup Hinv Hrest;
    simpl; [done|].
  destruct (tasks !! i) as [t|] eqn:Hi; [|by apply IH].
  destruct (task_step t db) as [t' db'] eqn:Hstep.
  assert (t' = (task_step t db).1 ∧ db' = (task_step t db).2) as [-> ->]
    by (by rewrite Hstep).
  destruct (task_step_fields t db) as [Hkey Hamount].
  assert (task_key <$> <[i := (task_step t db).1]> tasks = task_key <$> tasks) as Hkeys.
  { rewrite list_fmap_insert, Hkey. apply list_insert_id.
    by rewrite list_lookup_fmap, Hi. }
  assert ((λ t, (task_key t, t_amount t)) <$> <[i := (task_step t db).1]> tasks
          = (λ t, (task_key t, t_amount t)) <$> tasks) as Hfields.
  { rewrite list_fmap_insert, Hkey, Hamount. apply list_insert_id.
    by rewrite list_lookup_fmap, Hi. }
  rewrite <- Hkeys, <- Hfields. apply IH.
  - by rewrite Hkeys.
  - intros j t2 Hj. destruct (decide (i = j)) as [<-|Hij].
    + rewrite list_lookup_insert_eq in Hj by (by eapply lookup_lt_Some).
      injection Hj as <-. by apply task_step_inv, (Hinv i).
    + rewrite list_lookup_insert_ne in Hj by done.
      apply (task_inv_frame rows t2 db); [|by apply (Hinv j)].
      apply task_step_frame. intros Heq. apply Hij.
      apply (NoDup_lookup (task_key <$> tasks) i j (task_key t)); [done|..].
      * by rewrite list_lookup_fmap, Hi.
      * rewrite list_lookup_fmap, Hj. simpl. by rewrite Heq.
  - intros k Hk. rewrite Hkeys in Hk. rewrite task_step_frame; [by apply Hrest|].
    intros ->. apply Hk. apply list_elem_of_fmap_2.
    by eapply list_elem_of_lookup_2.
Qed.

(** X28. Grants in flight on pairwise different rows do not disturb each
    other: however their statements are interleaved, each grant that has
    finished has left in its row exactly what [add_xp] alone would have
    written on the database at the start, the rows no grant works on are as
    at the start, and no grant has changed its target or amount. *)
Theorem interleaved_grants_on_different_rows schedule grants db :
  NoDup ((λ gr : Z * Z * Z, (gr.1.1, gr.1.2)) <$> grants) →
  let tasks := (λ gr : Z * Z * Z, new_grant gr.1.1 gr.1.2 gr.2) <$> grants in
  let run := run_schedule schedule tasks db in
  (∀ i t, run.1 !! i = Some t → t_pc t = finished →
          xp_data run.2 !! task_key t
          = xp_data (add_xp (t_user t) (t_guild t) (t_amount t) db).2 !! task_key t)
  ∧ (∀ k, k ∉ task_key <$> tasks → xp_data run.2 !! k = xp_data db !! k)
  ∧ (λ t, (task_key t, t_amount t)) <$> run.1
    = (λ gr : Z * Z * Z, ((gr.1.1, gr.1.2), gr.2)) <$> grants.
Proof.
  intros Hdup tasks run.
  assert (task_key <$> tasks = (λ gr : Z * Z * Z, (gr.1.1, gr.1.2)) <$> grants) as Hkeys.
  { subst tasks. rewrite <- list_fmap_compose. done. }
  destruct (run_schedule_inv (xp_data db) schedule tasks db) as (Hinv & Hrest & Hfields).
  - by rewrite Hkeys.
  - intros i t Hi. subst tasks. rewrite list_lookup_fmap in Hi.
    destruct (grants !! i) as [gr|]; [|done]. injection Hi as <-. done.
  - done.
  - split; [|split; [exact Hrest|]].
    + intros i t Hi Hpc. specialize (Hinv i t Hi). unfold task_inv in Hinv.
      rewrite Hpc in Hinv. fold run in Hinv. rewrite Hinv, add_xp_db. simpl.
      unfold task_key. rewrite lookup_insert_eq. unfold granted, get_user_data.
      by destruct (xp_data db !! (t_user t, t_guild t)).
    + fold run in Hfields. rewrite Hfields. subst tasks.
      by rewrite <- list_fmap_compose.
Qed.

Lemma interleaved_grants_on_different_rows_witness :
  xp_data (run_schedule [0%nat; 1%nat; 0%nat; 1%nat]
             [new_grant 7 1 10; new_grant 8 1 7]
             {| xp_data := {[ (7, 1) := Progress 20 1 ]}; reward_roles := ∅ |}).2
    !! (7, 1)
  = xp_data (add_xp 7 1 10
               {| xp_data := {[ (7, 1) := Progress 20 1 ]}; reward_roles := ∅ |}).2
      !! (7, 1).
Proof.
  destruct (interleaved_grants_on_different_rows [0%nat; 1%nat; 0%nat; 1%nat]
              [(7, 1, 10); (8, 1, 7)]
              {| xp_data := {[ (7, 1) := Progress 20 1 ]}; reward_roles := ∅ |})
    as (Hdone & _).
  - refine (bool_decide_unpack _ _). vm_compute. exact I.
  - apply (Hdone 0%nat (GrantTask 7 1 10 finished)); reflexivity.
Defined.

(** X29. A grant whose row is deleted between its read and its write is
    dropped: the UPDATE finds no row, the database stays as it is, and the
    grant finishes all the same. *)
Theorem task_step_update_after_reset t data db :
  t_pc t = at_update data →
  xp_data db !! task_key t = None →
  (task_step t db).2 = db ∧ t_pc (task_step t db).1 = finished.
Proof.
  intros Hpc Hnone. unfold task_step. rewrite Hpc. simpl. split; [|done].
  unfold update_user_data.
  transitivity (set_xp_data (xp_data db) db); [|apply set_xp_data_same]. f_equal.
  apply map_eq. intros k. rewrite lookup_alter. case_decide; [|done].
  subst k. unfold task_key in Hnone. by rewrite Hnone.
Qed.

Lemma task_step_update_after_reset_witness :
  (task_step (GrantTask 7 1 10 (at_update (Progress 30 1)))
     (reset_user_xp 7 1 {| xp_data := {[ (7, 1) := Progress 20 1 ]};
                           reward_roles := ∅ |})).2
  = reset_user_xp 7 1 {| xp_data := {[ (7, 1) := Progress 20 1 ]}; reward_roles := ∅ |}.
Proof.
  apply (task_step_update_after_reset (GrantTask 7 1 10 (at_update (Progress 30 1)))
           (Progress 30 1)); reflexivity.
Defined.

End Flight.

(** ** The two grant paths side by side *)

Section Paths.

Implicit Types (db : database) (p : progress) (st : bot_state).






End Paths.

(** ** The helpers with the binding of their parameters *)

Section Binding.

Implicit Types (db : database) (p : progress) (st : bot_state).

Lemma remove_user_xp_sqlite_returned u g amount db :
  sqlite_integer u → sqlite_integer g →
  sqlite_integer (p_level (get_user_data u g db).1) →
  sqlite_integer (Z.max 0 (p_xp (get_user_data u g db).1 - amount)) →
  remove_user_xp_sqlite u g amount db
  = (returned (Z.max 0 (p_xp (get_user_data u g db).1 - amount)),
     (remove_user_xp u g amount db).2).
Proof.
  intros Hu Hg Hl Hx. unfold remove_user_xp_sqlite, get_user_data_sqlite.
  rewrite decide_True by done. unfold update_user_data_sqlite.
  rewrite decide_True by done. unfold remove_user_xp.
  by destruct (get_user_data u g db).
Qed.

Lemma remove_user_xp_sqlite_raised u g amount db :
  sqlite_integer u → sqlite_integer g →
  ¬ sqlite_integer (Z.max 0 (p_xp (get_user_data u g db).1 - amount)) →
  remove_user_xp_sqlite u g amount db = (raised, (get_user_data u g db).2).
Proof.
  intros Hu Hg Hx. unfold remove_user_xp_sqlite, get_user_data_sqlite.
  rewrite decide_True by done. unfold update_user_data_sqlite.
  rewrite decide_False; [done|]. by intros [? _].
Qed.

Lemma add_xp_manual_sqlite_returned u g amount db :
  sqlite_integer u → sqlite_integer g →
  sqlite_integer (p_xp (add_xp_manual_data (get_user_data u g db).1 amount).2) →
  sqlite_integer (p_level (add_xp_manual_data (get_user_data u g db).1 amount).2) →
  add_xp_manual_sqlite u g amount db
  = (returned (add_xp_manual u g amount db).1, (add_xp_manual u g amount db).2).
Proof.
  intros Hu Hg Hx Hl. unfold add_xp_manual_sqlite, get_user_data_sqlite.
  rewrite decide_True by done. unfold add_xp_manual.
  destruct (get_user_data u g db) as [data db1]. simpl in *.
  destruct (add_xp_manual_data data amount) as [f q]. simpl in *.
  unfold update_user_data_sqlite. by rewrite decide_True.
Qed.

Lemma add_xp_manual_sqlite_raised u g amount db :
  sqlite_integer u → sqlite_integer g →
  ¬ sqlite_integer (p_xp (add_xp_manual_data (get_user_data u g db).1 amount).2) →
  add_xp_manual_sqlite u g amount db = (raised, (get_user_data u g db).2).
Proof.
  intros Hu Hg Hx. unfold add_xp_manual_sqlite, get_user_data_sqlite.
  rewrite decide_True by done.
  destruct (get_user_data u g db) as [data db1]. simpl in *.
  destruct (add_xp_manual_data data amount) as [f q]. simpl in *.
  unfold update_user_data_sqlite. rewrite decide_False; [done|]. by intros [? _].
Qed.

(** C8, as stated, fails for amounts that push the xp out of SQLite's
    range: removing -2^63 from a row at xp 50, level 2 makes the UPDATE
    raise OverflowError; nothing is returned and the row stays. *)
Lemma remove_user_xp_overflow :
  remove_user_xp_sqlite 7 1 (- 2 ^ 63)
    {| xp_data := {[ (7, 1) := Progress 50 2 ]}; reward_roles := ∅ |}
  = (raised, {| xp_data := {[ (7, 1) := Progress 50 2 ]}; reward_roles := ∅ |}).
Proof. vm_compute. reflexivity. Qed.

(** C8, amended.  For every stored progress within SQLite's range and every
    amount with xp - amount < 2^63 (every amount ≥ 0 among them),
    [remove_user_xp] writes back and returns the old xp minus the amount
    clamped at 0, hence not negative, with the level that was read.  For
    the other amounts the UPDATE raises and the row stays as it was read. *)
Theorem remove_user_xp_sqlite_clamps u g amount db :
  sqlite_integer u → sqlite_integer g →
  sqlite_integer (p_xp (get_user_data u g db).1) →
  sqlite_integer (p_level (get_user_data u g db).1) →
  (p_xp (get_user_data u g db).1 - amount < 2 ^ 63 →
   ∃ p, remove_user_xp_sqlite u g amount db
        = (returned (p_xp p), (remove_user_xp u g amount db).2)
        ∧ xp_data (remove_user_xp_sqlite u g amount db).2 !! (u, g) = Some p
        ∧ p_xp p = Z.max 0 (p_xp (get_user_data u g db).1 - amount)
        ∧ 0 ≤ p_xp p
        ∧ p_level p = p_level (get_user_data u g db).1)
  ∧ (0 ≤ amount → p_xp (get_user_data u g db).1 - amount < 2 ^ 63)
  ∧ (2 ^ 63 ≤ p_xp (get_user_data u g db).1 - amount →
     remove_user_xp_sqlite u g amount db = (raised, (get_user_data u g db).2)
     ∧ xp_data (get_user_data u g db).2 !! (u, g) = Some (get_user_data u g db).1).
Proof.
  intros Hu Hg Hx Hl. split; [|split].
  - intros Hfits.
    exists (Progress (Z.max 0 (p_xp (get_user_data u g db).1 - amount))
                     (p_level (get_user_data u g db).1)).
    rewrite remove_user_xp_sqlite_returned by (done || (unfold sqlite_integer; lia)).
    simpl. rewrite remove_user_xp_db. simpl. rewrite lookup_insert_eq.
    repeat split. lia.
  - intros Ha. unfold sqlite_integer in Hx. lia.
  - intros Hover. split; [|apply get_user_data_row].
    apply remove_user_xp_sqlite_raised; [done..|]. unfold sqlite_integer. lia.
Qed.

Lemma remove_user_xp_sqlite_clamps_witness :
  ∃ p, remove_user_xp_sqlite 7 1 70
         {| xp_data := {[ (7, 1) := Progress 50 2 ]}; reward_roles := ∅ |}
       = (returned (p_xp p),
          (remove_user_xp 7 1 70
             {| xp_data := {[ (7, 1) := Progress 50 2 ]}; reward_roles := ∅ |}).2)
       ∧ p_xp p = 0 ∧ p_level p = 2.
Proof.
  destruct (remove_user_xp_sqlite_clamps 7 1 70
              {| xp_data := {[ (7, 1) := Progress 50 2 ]}; reward_roles := ∅ |})
    as [Hfits _]; [by vm_compute..|].
  destruct Hfits as (p & Hrun & _ & Hxp & _ & Hlevel); [by vm_compute|].
  exists p. split; [exact Hrun|]. split; [exact Hxp | exact Hlevel].
Defined.

(** C10, as stated, fails for amounts below SQLite's range: the global
    admin adding -9223372036854775809 to a member without a row makes the
    UPDATE raise OverflowError, and the row stays at the default xp 0,
    level 1 that the read created. *)
Lemma addxp_prefix_overflow :
  addxp_prefix_sqlite global_admin 7 1 (-9223372036854775809) empty_db
  = (raised, {| xp_data := {[ (7, 1) := Progress 0 1 ]}; reward_roles := ∅ |}).
Proof. vm_compute. reflexivity. Qed.

(** C10, amended.  [addxp_prefix] hands the amount to [add_xp_manual]
    unchecked.  In every state of a run, when an admin adds a negative
    amount to a row within SQLite's range and xp + amount is not below
    -2^63, the rollover loop does not run (leveled_up is false and the level
    is the one read), the stored xp is the old xp less |amount|, and it is
    negative as soon as |amount| exceeds the old xp.  Below -2^63 the
    UPDATE raises and the row stays as it was read. *)
Theorem addxp_prefix_sqlite_negative_amount st author target g amount :
  reachable st → is_admin_member (Some author) = true → amount < 0 →
  sqlite_integer target → sqlite_integer g →
  sqlite_integer (p_xp (get_user_data target g (st_db st)).1) →
  sqlite_integer (p_level (get_user_data target g (st_db st)).1) →
  (- 2 ^ 63 ≤ p_xp (get_user_data target g (st_db st)).1 + amount →
   add_xp_manual_sqlite target g amount (st_db st)
   = (returned (false, p_level (get_user_data target g (st_db st)).1),
      (add_xp_manual target g amount (st_db st)).2)
   ∧ addxp_prefix_sqlite author target g amount (st_db st)
     = (returned tt, (add_xp_manual target g amount (st_db st)).2)
   ∧ ∃ after,
       xp_data (addxp_prefix_sqlite author target g amount (st_db st)).2 !! (target, g)
       = Some after
       ∧ p_xp after = p_xp (get_user_data target g (st_db st)).1 - Z.abs amount
       ∧ p_level after = p_level (get_user_data target g (st_db st)).1
       ∧ (p_xp (get_user_data target g (st_db st)).1 < Z.abs amount → p_xp after < 0))
  ∧ (p_xp (get_user_data target g (st_db st)).1 + amount < - 2 ^ 63 →
     addxp_prefix_sqlite author target g amount (st_db st)
     = (raised, (get_user_data target g (st_db st)).2)
     ∧ xp_data (get_user_data target g (st_db st)).2 !! (target, g)
       = Some (get_user_data target g (st_db st)).1).
Proof.
  intros Hst Hadmin Ha Hu Hg Hx Hl.
  pose proof (get_user_data_within target g _ (reachable_rows_within st Hst)) as [_ Hlt].
  destruct (add_xp_manual_negative target g amount (st_db st) Hlt Ha) as [Hres Hrow].
  assert (add_xp_manual_data (get_user_data target g (st_db st)).1 amount
          = (false, Progress (p_xp (get_user_data target g (st_db st)).1 + amount)
                             (p_level (get_user_data target g (st_db st)).1))) as Hdata.
  { unfold add_xp_manual_data. apply rollover_exit. lia. }
  split.
  - intros Hfits.
    assert (add_xp_manual_sqlite target g amount (st_db st)
            = (returned (false, p_level (get_user_data target g (st_db st)).1),
               (add_xp_manual target g amount (st_db st)).2)) as Hrun.
    { rewrite add_xp_manual_sqlite_returned, Hres; [done..| |];
        rewrite Hdata; simpl; [|done]. unfold sqlite_integer in *. lia. }
    split; [exact Hrun|]. unfold addxp_prefix_sqlite. rewrite Hadmin, Hrun.
    split; [done|]. simpl. eexists. split; [exact Hrow|]. simpl. lia.
  - intros Hover. split; [|apply get_user_data_row].
    unfold addxp_prefix_sqlite. rewrite Hadmin.
    rewrite add_xp_manual_sqlite_raised; [done..|].
    rewrite Hdata. simpl. unfold sqlite_integer. lia.
Qed.

Lemma addxp_prefix_sqlite_negative_amount_witness :
  addxp_prefix_sqlite global_admin 7 1 (-5) (st_db initial_state)
  = (returned tt, (add_xp_manual 7 1 (-5) (st_db initial_state)).2)
  ∧ xp_data (add_xp_manual 7 1 (-5) (st_db initial_state)).2 !! (7, 1)
    = Some (Progress (-5) 1).
Proof.
  destruct (addxp_prefix_sqlite_negative_amount initial_state global_admin 7 1 (-5))
    as [Hfits _];
    [apply reachable_initial | reflexivity | lia | by vm_compute ..|].
  destruct Hfits as (_ & Hrun & _); [by vm_compute|].
  split; [exact Hrun | reflexivity].
Defined.

(** X9. On a row within SQLite's range, removing [a ≥ 0] and then [b ≥ 0]
    with [remove_user_xp] returns the same xp and leaves the same database
    as removing [a + b] at once, and none of the three calls raises: the
    clamp at 0 hands nothing back. *)
Theorem remove_user_xp_sqlite_twice u g a b db :
  sqlite_integer u → sqlite_integer g →
  sqlite_integer (p_xp (get_user_data u g db).1) →
  sqlite_integer (p_level (get_user_data u g db).1) →
  0 ≤ a → 0 ≤ b →
  ∃ x, remove_user_xp_sqlite u g a db
       = (returned (Z.max 0 (p_xp (get_user_data u g db).1 - a)),
          (remove_user_xp u g a db).2)
       ∧ remove_user_xp_sqlite u g b (remove_user_xp u g a db).2
         = (returned x, (remove_user_xp u g (a + b) db).2)
       ∧ remove_user_xp_sqlite u g (a + b) db
         = (returned x, (remove_user_xp u g (a + b) db).2).
Proof.
  intros Hu Hg Hx Hl Ha Hb.
  exists (Z.max 0 (p_xp (get_user_data u g db).1 - (a + b))).
  assert ((get_user_data u g (remove_user_xp u g a db).2).1
          = Progress (Z.max 0 (p_xp (get_user_data u g db).1 - a))
                     (p_level (get_user_data u g db).1)) as Hread
    by (rewrite remove_user_xp_db; apply get_user_data_put).
  unfold sqlite_integer in *. split; [|split].
  - apply remove_user_xp_sqlite_returned; unfold sqlite_integer; (done || lia).
  - rewrite remove_user_xp_sqlite_returned; rewrite ?Hread; simpl;
      unfold sqlite_integer; try (done || lia).
    f_equal; [f_equal; lia|].
    rewrite (remove_user_xp_db u g b), Hread. simpl.
    rewrite (remove_user_xp_db u g a), put_put, (remove_user_xp_db u g (a + b)).
    simpl. do 3 f_equal. lia.
  - apply remove_user_xp_sqlite_returned; unfold sqlite_integer; (done || lia).
Qed.

Lemma remove_user_xp_sqlite_twice_witness :
  ∃ x, remove_user_xp_sqlite 7 1 30
         (remove_user_xp 7 1 40
            {| xp_data := {[ (7, 1) := Progress 50 2 ]}; reward_roles := ∅ |}).2
       = (returned x,
          (remove_user_xp 7 1 (40 + 30)
             {| xp_data := {[ (7, 1) := Progress 50 2 ]}; reward_roles := ∅ |}).2).
Proof.
  destruct (remove_user_xp_sqlite_twice 7 1 40 30
              {| xp_data := {[ (7, 1) := Progress 50 2 ]}; reward_roles := ∅ |})
    as (x & _ & Hsecond & _); [by vm_compute .. | lia | lia |].
  exists x. exact Hsecond.
Defined.

End Binding.

(** ** The reaction gate in the handler *)

Section Reactions.

Implicit Types (db : database) (st : bot_state).







End Reactions.

(** ** Handlers that overlap *)

Section Overlap.

Implicit Types (db : database) (p : progress) (st : bot_state).

Lemma update_user_data_row u g x l p db :
  xp_data db !! (u, g) = Some p →
  update_user_data u g x l db
  = set_xp_data (<[(u, g) := Progress x l]> (xp_data db)) db.
Proof.
  intros Hrow. unfold update_user_data, set_xp_data. f_equal.
  apply map_eq. intros k. rewrite lookup_alter, lookup_insert.
  case_decide; subst; by rewrite ?Hrow.
Qed.

(** X13. A stored level can go down again when two grants on one row
    overlap.  Both read the row before either writes; the first UPDATE
    stores the level-up, and the second UPDATE writes what it computed from
    the row as it had read it, the old level included.  The same two grants
    one after the other leave the row above the level read.  All values
    bound by the UPDATEs fit a SQLite INTEGER, so none of them raises. *)
Theorem interleaved_grant_undoes_level_up u g p a b db :
  xp_data db !! (u, g) = Some p →
  grant_binds u g p a → grant_binds u g p b →
  grant_binds u g (add_xp_data p a).2 b →
  xp_for_next_level (p_level p) ≤ p_xp p + a →
  p_xp p + b < xp_for_next_level (p_level p) →
  let tasks := [new_grant u g a; new_grant u g b] in
  xp_data (run_schedule [0; 1; 0]%nat tasks db).2 !! (u, g)
  = Some (Progress (p_xp p + a - xp_for_next_level (p_level p)) (p_level p + 1))
  ∧ all_finished (run_schedule [0; 1; 0; 1]%nat tasks db).1 = true
  ∧ xp_data (run_schedule [0; 1; 0; 1]%nat tasks db).2 !! (u, g)
    = Some (Progress (p_xp p + b) (p_level p))
  ∧ ∃ q, xp_data (run_schedule [0; 0; 1; 1]%nat tasks db).2 !! (u, g) = Some q
         ∧ p_level p < p_level q.
Proof.
  intros Hrow _ _ _ Ha Hb tasks. subst tasks.
  unfold new_grant, run_schedule, task_step. simpl. rewrite Hrow. simpl.
  rewrite !lookup_alter_eq, Hrow. simpl.
  unfold add_xp_data. rewrite decide_True by done. rewrite decide_False by lia.
  simpl. rewrite !lookup_alter_eq, Hrow. simpl.
  split; [done|]. split; [done|]. split; [done|].
  eexists. split; [reflexivity|]. case_decide; simpl; lia.
Qed.

Lemma interleaved_grant_undoes_level_up_witness :
  let db := {| xp_data := {[ (7, 1) := Progress 90 1 ]}; reward_roles := ∅ |} in
  xp_data (run_schedule [0; 1; 0]%nat [new_grant 7 1 10; new_grant 7 1 5] db).2 !! (7, 1)
  = Some (Progress 0 2)
  ∧ xp_data (run_schedule [0; 1; 0; 1]%nat [new_grant 7 1 10; new_grant 7 1 5] db).2 !! (7, 1)
    = Some (Progress 95 1).
Proof.
  intros db.
  destruct (interleaved_grant_undoes_level_up 7 1 (Progress 90 1) 10 5 db)
    as (Hup & _ & Hdown & _).
  - reflexivity.
  - refine (bool_decide_unpack _ _). vm_compute. exact I.
  - refine (bool_decide_unpack _ _). vm_compute. exact I.
  - refine (bool_decide_unpack _ _). vm_compute. exact I.
  - vm_compute. discriminate.
  - reflexivity.
  - split; [exact Hup | exact Hdown].
Defined.

(** A message handled with no other handler in between is [on_message]. *)
Lemma run_messages_alone g a now gain st :
  (run_messages [0; 0; 0; 0]%nat [new_message g a now gain] st).2
  = on_message (Some g) (User a false) now gain st.
Proof.
  unfold on_message, new_message. simpl. unfold message_step at 1. simpl.
  destruct (cooldown_over (cooldowns st) (message_key g a) now XP_COOLDOWN) eqn:Hgate;
    simpl; [|by destruct st].
  rewrite add_xp_db. unfold message_step, task_step, get_user_data. simpl.
  destruct (xp_data (st_db st) !! (a, g)) as [row|] eqn:Hrow; simpl.
  - rewrite (update_user_data_row _ _ _ _ row) by done.
    by destruct (add_xp_data row gain).2.
  - unfold update_user_data, set_xp_data. simpl. rewrite alter_insert_eq.
    by destruct (add_xp_data (Progress 0 1) gain).2.
Qed.

(** X15. [on_message] records the grant in [cooldowns] only when [add_xp]
    has returned, so the cooldown holds back a second message of the
    author only when its handler starts after the first has finished.  A
    second message within the cooldown whose handler starts while the UPDATE
    of the first is running still reads the old entry: both handlers grant,
    the second on top of the first.  When the second handler starts after
    the first has finished, it finds the gate closed and the state is that
    of the first grant alone. *)
Theorem on_message_gate_closes_late g a now1 now2 gain1 gain2 p st :
  xp_data (st_db st) !! (a, g) = Some p →
  grant_binds a g p gain1 → grant_binds a g (add_xp_data p gain1).2 gain2 →
  cooldown_over (cooldowns st) (message_key g a) now1 XP_COOLDOWN = true →
  cooldown_over (cooldowns st) (message_key g a) now2 XP_COOLDOWN = true →
  now2 - now1 < XP_COOLDOWN →
  let tasks := [new_message g a now1 gain1; new_message g a now2 gain2] in
  let overlapping := run_messages [0; 0; 1; 0; 1; 1]%nat tasks st in
  let in_turn := run_messages [0; 0; 0; 1]%nat tasks st in
  (mt_pc <$> overlapping.1 = [msg_done; msg_done]
   ∧ st_db overlapping.2 = (add_xp a g gain2 (add_xp a g gain1 (st_db st)).2).2
   ∧ cooldowns overlapping.2 !! message_key g a = Some now2)
  ∧ (mt_pc <$> in_turn.1 = [msg_done; msg_done]
     ∧ st_db in_turn.2 = (add_xp a g gain1 (st_db st)).2
     ∧ cooldowns in_turn.2 !! message_key g a = Some now1
     ∧ in_turn.2 = on_message (Some g) (User a false) now2 gain2
                     (on_message (Some g) (User a false) now1 gain1 st)).
Proof.
  intros Hrow _ _ Hg1 Hg2 Hnow tasks overlapping in_turn.
  assert ((add_xp a g gain1 (st_db st)).2
          = update_user_data a g (p_xp (add_xp_data p gain1).2)
              (p_level (add_xp_data p gain1).2) (st_db st)) as Hfirst.
  { unfold add_xp, get_user_data. rewrite Hrow.
    by destruct (add_xp_data p gain1) as [f [x l]]. }
  split.
  - subst overlapping tasks. unfold new_message. simpl.
    unfold message_step, task_step. simpl. rewrite Hg1. simpl.
    rewrite Hrow. simpl. rewrite Hg2. simpl.
    rewrite lookup_alter_eq, Hrow. simpl.
    split; [done|]. split; [|by rewrite lookup_insert_eq].
    rewrite Hfirst. unfold add_xp, get_user_data. simpl.
    rewrite lookup_alter_eq, Hrow. simpl.
    by destruct (add_xp_data _ gain2) as [f [x l]].
  - assert (cooldown_over (<[message_key g a := now1]> (cooldowns st))
              (message_key g a) now2 XP_COOLDOWN = false) as Hclosed.
    { rewrite cooldown_over_insert_eq. apply bool_decide_eq_false. lia. }
    subst in_turn tasks. unfold new_message, on_message. simpl.
    unfold message_step, task_step. simpl. rewrite Hg1. simpl.
    rewrite Hrow. simpl. rewrite <- Hfirst, Hclosed. simpl.
    split; [done|]. split; [done|]. split; [by rewrite lookup_insert_eq|]. done.
Qed.

Lemma on_message_gate_closes_late_witness :
  let st := {| st_db := {| xp_data := {[ (7, 1) := Progress 20 1 ]}; reward_roles := ∅ |};
               cooldowns := ∅; last_top_user := ∅ |} in
  xp_data (st_db (run_messages [0; 0; 1; 0; 1; 1]%nat
                    [new_message 1 7 100 10; new_message 1 7 101 7] st).2) !! (7, 1)
  = Some (Progress 37 1)
  ∧ xp_data (st_db (run_messages [0; 0; 0; 1]%nat
                      [new_message 1 7 100 10; new_message 1 7 101 7] st).2) !! (7, 1)
    = Some (Progress 30 1).
Proof.
  intros st.
  destruct (on_message_gate_closes_late 1 7 100 101 10 7 (Progress 20 1) st)
    as ((_ & Hboth & _) & (_ & Hone & _)).
  - reflexivity.
  - refine (bool_decide_unpack _ _). vm_compute. exact I.
  - refine (bool_decide_unpack _ _). vm_compute. exact I.
  - reflexivity.
  - reflexivity.
  - reflexivity.
  - rewrite Hboth, Hone. split; reflexivity.
Defined.

End Overlap.

(** ** The handlers, step by step *)

Section Steps.

Implicit Types (db : database) (st : bot_state).


Lemma run_reaction_done k t st :
  rt_pc t = react_done → run_reaction k t st = (t, st).
Proof.
  intros Hpc. induction k as [|k IH]; simpl; [done|].
  unfold reaction_step. by rewrite Hpc.
Qed.

(** The reactor's part, run alone, is the first half of
    [on_reaction_add]. *)
Lemma run_reaction_reactor g reactor author now gain gain_a pc0 st :
  pc0 = react_gate →
  ∃ n, (n ≤ 4)%nat ∧ ∀ k,
    run_reaction (n + k) (ReactionTask g reactor author now gain gain_a pc0) st
    = run_reaction k (ReactionTask g reactor author now gain gain_a react_author)
        (if cooldown_over (cooldowns st) (react_key g reactor) now REACTION_COOLDOWN
         then {| st_db := (add_xp reactor g gain (st_db st)).2;
                 cooldowns := <[react_key g reactor := now]> (cooldowns st);
                 last_top_user := last_top_user st |}
         else st).
Proof.
  intros ->.
  destruct (cooldown_over (cooldowns st) (react_key g reactor) now REACTION_COOLDOWN)
    eqn:Hgate.
  - rewrite add_xp_db. unfold get_user_data.
    destruct (xp_data (st_db st) !! (reactor, g)) as [row|] eqn:Hrow.
    + exists 3%nat. split; [lia|]. intros k. simpl.
      unfold reaction_step, task_step. simpl. rewrite Hgate. simpl.
      rewrite Hrow. simpl. unfold set_rt_pc. simpl.
      rewrite (update_user_data_row _ _ _ _ row) by done.
      by destruct (add_xp_data row gain).2.
    + exists 4%nat. split; [lia|]. intros k. simpl.
      unfold reaction_step, task_step. simpl. rewrite Hgate. simpl.
      rewrite Hrow. simpl. unfold set_rt_pc. simpl.
      unfold update_user_data, set_xp_data. simpl. rewrite alter_insert_eq.
      by destruct (add_xp_data (Progress 0 1) gain).2.
  - exists 1%nat. split; [lia|]. intros k. simpl.
    unfold reaction_step. simpl. by rewrite Hgate.
Qed.

(** The author's part, run alone, is the second half. *)
Lemma run_reaction_author g reactor author now gain gain_a pc0 st :
  pc0 = react_author →
  ∃ n, (n ≤ 4)%nat ∧ ∀ k,
    (run_reaction (n + k) (ReactionTask g reactor author now gain gain_a pc0) st).2
    = match author with
      | Some a =>
          if u_bot a then st
          else if cooldown_over (cooldowns st) (react_key g (u_id a)) now REACTION_COOLDOWN
          then {| st_db := (add_xp (u_id a) g gain_a (st_db st)).2;
                  cooldowns := <[react_key g (u_id a) := now]> (cooldowns st);
                  last_top_user := last_top_user st |}
          else st
      | None => st
      end.
Proof.
  intros ->. destruct author as [a|].
  - destruct (u_bot a) eqn:Hbot.
    { exists 1%nat. split; [lia|]. intros k. simpl.
      unfold reaction_step. simpl. rewrite Hbot. by rewrite run_reaction_done. }
    destruct (cooldown_over (cooldowns st) (react_key g (u_id a)) now REACTION_COOLDOWN)
      eqn:Hgate.
    + rewrite add_xp_db. unfold get_user_data.
      destruct (xp_data (st_db st) !! (u_id a, g)) as [row|] eqn:Hrow.
      * exists 3%nat. split; [lia|]. intros k. simpl.
        unfold reaction_step, task_step. simpl. rewrite Hbot, Hgate. simpl.
        rewrite Hrow. simpl. unfold set_rt_pc. simpl.
        rewrite run_reaction_done by done. simpl.
        rewrite (update_user_data_row _ _ _ _ row) by done.
        by destruct (add_xp_data row gain_a).2.
      * exists 4%nat. split; [lia|]. intros k. simpl.
        unfold reaction_step, task_step. simpl. rewrite Hbot, Hgate. simpl.
        rewrite Hrow. simpl. unfold set_rt_pc. simpl.
        rewrite run_reaction_done by done. simpl.
        unfold update_user_data, set_xp_data. simpl. rewrite alter_insert_eq.
        by destruct (add_xp_data (Progress 0 1) gain_a).2.
    + exists 1%nat. split; [lia|]. intros k. simpl.
      unfold reaction_step. simpl. rewrite Hbot, Hgate. by rewrite run_reaction_done.
  - exists 1%nat. split; [lia|]. intros k. simpl.
    unfold reaction_step. simpl. by rewrite run_reaction_done.
Qed.

(** A reaction handled with no other handler in between is
    [on_reaction_add]. *)
Lemma run_reaction_alone g reactor author now gain gain_a st :
  (run_reaction 8 (new_reaction g reactor author now gain gain_a) st).2
  = on_reaction_add (Some g) (User reactor false) author now gain gain_a st.
Proof.
  unfold new_reaction, on_reaction_add. cbn [u_bot u_id].
  destruct (run_reaction_reactor g reactor author now gain gain_a react_gate st eq_refl)
    as (n1 & Hn1 & Hfirst).
  set (st1 := if cooldown_over (cooldowns st) (react_key g reactor) now REACTION_COOLDOWN
              then _ else st) in *.
  destruct (run_reaction_author g reactor author now gain gain_a react_author st1 eq_refl)
    as (n2 & Hn2 & Hsecond).
  replace 8%nat with (n1 + (n2 + (8 - n1 - n2)))%nat by lia.
  rewrite Hfirst, Hsecond. done.
Qed.


End Steps.

(** ** Where level-ups are announced *)

Section Announce.

(** X26. Once a level-up channel other than 0 is set for a guild, the
    level-up embed that [on_message] sends for a message of that guild goes
    to it, whatever channel the message came from: it is the embed that is
    sent to the channel of the message when the guild has no setting, with
    the same level, addressed to the set channel, and it is dropped when the
    guild has no channel of that id.  Messages of other guilds are announced
    as before. *)
Theorem on_message_level_up_after_set settings channels g c g' author mc now gain st :
  sqlite_integer g → sqlite_integer c → c ≠ 0 →
  on_message_level_up (set_level_channel_id g c settings) channels (Some g)
    author mc now gain st
  = (if decide (c ∈ channels)
     then (λ sent : Z * Z, (c, sent.2)) <$>
            on_message_level_up (delete g settings) channels (Some g) author mc now gain st
     else None)
  ∧ (∀ ch lvl,
       on_message_level_up (delete g settings) channels (Some g) author mc now gain st
       = Some (ch, lvl) → ch = mc)
  ∧ (g' ≠ g →
     on_message_level_up (set_level_channel_id g c settings) channels (Some g')
       author mc now gain st
     = on_message_level_up settings channels (Some g') author mc now gain st).
Proof.
  intros _ _ Hc.
  unfold on_message_level_up, level_up_channel, get_level_channel_id, set_level_channel_id.
  rewrite lookup_insert_eq, lookup_delete_eq. rewrite (decide_False (P := c = 0)) by done.
  split; [|split].
  - destruct (u_bot author); [by case_decide|].
    destruct (cooldown_over _ _ _ _); [|by case_decide].
    destruct (add_xp (u_id author) g gain (st_db st)).1 as [[|] lvl]; by case_decide.
  - intros ch lvl. destruct (u_bot author); [done|].
    destruct (cooldown_over _ _ _ _); [|done].
    destruct (add_xp (u_id author) g gain (st_db st)).1 as [[|] l]; [|done].
    simpl. by intros [= <- _].
  - intros Hne. by rewrite lookup_insert_ne.
Qed.

Lemma on_message_level_up_after_set_witness :
  let st := {| st_db := {| xp_data := {[ (7, 1) := Progress 95 1 ]}; reward_roles := ∅ |};
               cooldowns := ∅; last_top_user := ∅ |} in
  on_message_level_up (set_level_channel_id 1 55 ∅) {[ 55; 56 ]} (Some 1)
    (User 7 false) 56 100 10 st = Some (55, 2)
  ∧ on_message_level_up (set_level_channel_id 1 55 ∅) {[ 56 ]} (Some 1)
      (User 7 false) 56 100 10 st = None.
Proof.
  intros st. split.
  - destruct (on_message_level_up_after_set ∅ {[ 55; 56 ]} 1 55 2 (User 7 false) 56 100 10 st)
      as (-> & _).
    + refine (bool_decide_unpack _ _). vm_compute. exact I.
    + refine (bool_decide_unpack _ _). vm_compute. exact I.
    + lia.
    + reflexivity.
  - destruct (on_message_level_up_after_set ∅ {[ 56 ]} 1 55 2 (User 7 false) 56 100 10 st)
      as (-> & _).
    + refine (bool_decide_unpack _ _). vm_compute. exact I.
    + refine (bool_decide_unpack _ _). vm_compute. exact I.
    + lia.
    + reflexivity.
Defined.

End Announce.
